(** * The subject data vault of ClearGDPR: [SubjectsService]

    A shallow embedding of the class [SubjectsService] (the service that
    keeps the encrypted personal data of data subjects, their encryption
    keys and their processor associations) together with the properties
    its specification states about it.

    The service is asynchronous JavaScript over a relational store that
    it reaches through the knex query builder.  Every method is embedded
    as a computation in a state-and-exception monad over a [World]: the
    three tables the service touches, the trace of the observable events
    of a run, and a logical clock.  Whatever the service does not decide
    itself (a statement or a commit rejected by the store, the outcome of
    the ledger call, the keys the generator draws) is read from an
    [Environment] at the current clock value. *)

From Stdlib Require Import String Ascii List ZArith Bool Arith Lia.
From Stdlib Require Import DecimalString.
Import ListNotations.
Local Open Scope string_scope.

Set Implicit Arguments.
Set Warnings "-register-all".

(** ** Data model *)

Definition SubjectId := string.
Definition ProcessorId := nat.
Definition Key := string.
Definition Ciphertext := string.
Definition Timestamp := nat.

(** A row of table [subjects].  [personal_data] and [objection] are
    nullable columns. *)
Record subject_row : Type := mkSubject {
  id : SubjectId;
  personal_data : option Ciphertext;
  direct_marketing : bool;
  email_communication : bool;
  research : bool;
  objection : option bool;
  created_at : Timestamp;
  updated_at : Timestamp
}.

(** A row of table [subject_keys]. *)
Record subject_key_row : Type := mkSubjectKey {
  key_subject_id : SubjectId;
  key : Key
}.

(** A row of table [subject_processors]. *)
Record subject_processor_row : Type := mkSubjectProcessor {
  sp_subject_id : SubjectId;
  processor_id : ProcessorId
}.

(** The store.  Tables are lists of rows in insertion order: the service
    checks by itself that an update by id touches one row only, so no
    uniqueness of ids is built into the tables. *)
Record DB : Type := mkDB {
  subjects : list subject_row;
  subject_keys : list subject_key_row;
  subject_processors : list subject_processor_row
}.

(** The values the service hands to [JSON.stringify] and gets from
    [JSON.parse].  [JNaN] is the number [NaN]: a payload can hold it,
    [JSON.stringify] writes it as [null], and [JSON.parse] never gives
    it. *)
Inductive json : Type :=
| JNull
| JBool (b : bool)
| JNum (n : Z)
| JNaN
| JStr (s : string)
| JArr (items : list json)
| JObj (fields : list (string * json)).

(** The errors a method can be rejected with: the three classes of
    [utils/errors], what the decryption helper and [JSON.parse] throw,
    and the rejections of the store and of the ledger client. *)
Inductive Error : Type :=
| NotFound (msg : string)
| ValidationError (msg : string)
| Forbidden (msg : string)
| DecryptionError
| SyntaxError
| StoreError
| LedgerError.

(** How an awaited promise settles. *)
Inductive Outcome (A : Type) : Type :=
| Resolved (a : A)
| Rejected (e : Error).
Arguments Resolved {A} a.
Arguments Rejected {A} e.

(** The observable events of a run, in the order they happen. *)
Inductive Event : Type :=
| Begin
| Commit
| Rollback
| Info (msg : string)
| KeyGenerated (k : Key)
| LedgerCall (subjectId : SubjectId).

Record World : Type := mkWorld {
  store : DB;
  trace : list Event;
  tick : nat
}.

(** ** Collaborators *)

(** What the outside decides, as a function of the logical clock. *)
Class Environment : Type := {
  store_ok : nat -> bool;
  ledger_ok : nat -> bool;
  key_source : nat -> Key
}.

(** The cipher of [utils/encryption], which is not among the sources:
    [encrypt(plaintext, key) -> ciphertext] and
    [decrypt(ciphertext, key) -> plaintext], the latter failing on what
    it cannot decode.  [decryptFromStorage] is handed the column as it
    is read, null included. *)
Class Encryption : Type := {
  encryptForStorage : string -> Key -> Ciphertext;
  decryptFromStorage : option Ciphertext -> Key -> option string
}.

(** The two functions of the built-in [JSON] object the service calls. *)
Class Json : Type := {
  JSON_stringify : json -> string;
  JSON_parse : string -> option json
}.

(** ** The monad of asynchronous store computations *)

Definition M (A : Type) : Type := World -> Outcome A * World.

Definition ret {A : Type} (a : A) : M A := fun w => (Resolved a, w).

Definition throw {A : Type} (e : Error) : M A := fun w => (Rejected e, w).

Definition bind {A B : Type} (m : M A) (f : A -> M B) : M B :=
  fun w =>
    match m w with
    | (Resolved a, w1) => f a w1
    | (Rejected e, w1) => (Rejected e, w1)
    end.

Declare Scope async_scope.
Delimit Scope async_scope with async.
Notation "x <- m ;; k" := (bind m (fun x => k))
  (at level 61, m at next level, right associativity) : async_scope.
Notation "m ;; k" := (bind m (fun _ => k))
  (at level 61, right associativity) : async_scope.
Local Open Scope async_scope.

Definition emit (e : Event) (w : World) : World :=
  mkWorld (store w) (trace w ++ [e]) (tick w).

Definition advance (w : World) : World :=
  mkWorld (store w) (trace w) (S (tick w)).

Definition with_store (d : DB) (w : World) : World :=
  mkWorld d (trace w) (tick w).

(** The first element of a result set: [const [x] = await ...]. *)
Definition first_row {A : Type} (rows : list A) : option A :=
  match rows with
  | [] => None
  | r :: _ => Some r
  end.

Section Service.

Context {env : Environment} {enc : Encryption} {js : Json}.

(** One awaited statement.  [q] gets the store's current timestamp and
    the tables, and gives a result and the tables after it (uncommitted
    when inside a transaction). *)
Definition statement {A : Type} (q : Timestamp -> DB -> A * DB) : M A :=
  fun w =>
    if store_ok (tick w) then
      let (a, d) := q (tick w) (store w) in
      (Resolved a, advance (with_store d w))
    else (Rejected StoreError, advance w).

(** [db.transaction(async trx => ...)]: knex commits when the promise of
    the handler resolves and rolls back when it rejects; the promise of
    the transaction is rejected with the handler's error, or with the
    store's when the commit does not go through. *)
Definition transaction {A : Type} (handler : M A) : M A :=
  fun w =>
    let snapshot := store w in
    match handler (emit Begin w) with
    | (Resolved a, w1) =>
        if store_ok (tick w1)
        then (Resolved a, advance (emit Commit w1))
        else (Rejected StoreError, advance (emit Rollback (with_store snapshot w1)))
    | (Rejected e, w1) =>
        (Rejected e, advance (emit Rollback (with_store snapshot w1)))
    end.

(** [winston.info(msg)]. *)
Definition winston_info (msg : string) : M unit :=
  fun w => (Resolved tt, emit (Info msg) w).

(** Modelled from the spec: [generateClientKey] of [utils/encryption] is
    not among the sources.  The key generator is consumed as
    [generateKey() -> key], an opaque random key: the call draws the key
    the environment holds for the current clock value. *)
Definition generateClientKey : M Key :=
  fun w =>
    let k := key_source (tick w) in
    (Resolved k, advance (emit (KeyGenerated k) w)).

(** Modelled from the spec: [recordErasureByProcessor] of
    [utils/blockchain] is not among the sources.  The ledger notifier is
    consumed as [recordErasure(subjectId) -> receipt] and may fail
    independently of local storage: the call is made, then the
    environment decides whether it resolves. *)
Definition recordErasureByProcessor (subjectId : SubjectId) : M unit :=
  fun w =>
    let w1 := advance (emit (LedgerCall subjectId) w) in
    if ledger_ok (tick w) then (Resolved tt, w1) else (Rejected LedgerError, w1).

(** ** Queries *)

(** [subjects JOIN subject_keys ON subjects.id = subject_keys.subject_id]. *)
Definition join_keys (d : DB) : list (subject_row * subject_key_row) :=
  flat_map
    (fun s => map (fun k => (s, k))
                  (filter (fun k => String.eqb (id s) (key_subject_id k)) (subject_keys d)))
    (subjects d).

Definition q_subject_data (subjectId : SubjectId) (_ : Timestamp) (d : DB)
  : list (option Ciphertext * Key) * DB :=
  (map (fun sk => (personal_data (fst sk), key (snd sk)))
       (filter (fun sk => String.eqb (key_subject_id (snd sk)) subjectId) (join_keys d)),
   d).

Definition q_subject_by_id (subjectId : SubjectId) (_ : Timestamp) (d : DB)
  : list subject_row * DB :=
  (filter (fun s => String.eqb (id s) subjectId) (subjects d), d).

Definition q_key_by_subject (subjectId : SubjectId) (_ : Timestamp) (d : DB)
  : list subject_key_row * DB :=
  (filter (fun k => String.eqb (key_subject_id k) subjectId) (subject_keys d), d).

Definition q_del_keys (subjectId : SubjectId) (_ : Timestamp) (d : DB) : unit * DB :=
  (tt, mkDB (subjects d)
            (filter (fun k => negb (String.eqb (key_subject_id k) subjectId)) (subject_keys d))
            (subject_processors d)).

Definition q_del_processors (subjectId : SubjectId) (_ : Timestamp) (d : DB) : unit * DB :=
  (tt, mkDB (subjects d)
            (subject_keys d)
            (filter (fun p => negb (String.eqb (sp_subject_id p) subjectId))
                    (subject_processors d))).

(** ** [eraseDataAndRevokeConsent] *)

Definition eraseDataAndRevokeConsent (subjectId : SubjectId) : M unit :=
  transaction (
    statement (q_del_keys subjectId) ;;
    statement (q_del_processors subjectId) ;;
    winston_info "Emitting erasure event to blockchain" ;;
    recordErasureByProcessor subjectId).

(** ** [getSubjectData] *)

Definition getSubjectData (subjectId : SubjectId) : M json :=
  rows <- statement (q_subject_data subjectId) ;;
  match first_row rows with
  | None => throw (NotFound "Subject not found")
  | Some data =>
      match decryptFromStorage (fst data) (snd data) with
      | None => throw DecryptionError
      | Some decryptedData =>
          match JSON_parse decryptedData with
          | None => throw SyntaxError
          | Some v => ret v
          end
      end
  end.

(** ** [initializeUser] *)

Definition q_insert_subject (subjectId : SubjectId) (c : Ciphertext)
  (now : Timestamp) (d : DB) : unit * DB :=
  (tt, mkDB (subjects d ++ [mkSubject subjectId (Some c) true true true None now now])
            (subject_keys d)
            (subject_processors d)).

Definition q_insert_key (subjectId : SubjectId) (k : Key) (_ : Timestamp) (d : DB)
  : unit * DB :=
  (tt, mkDB (subjects d)
            (subject_keys d ++ [mkSubjectKey subjectId k])
            (subject_processors d)).

Definition set_personal_data (c : Ciphertext) (now : Timestamp) (s : subject_row)
  : subject_row :=
  mkSubject (id s) (Some c) (direct_marketing s) (email_communication s) (research s)
            (objection s) (created_at s) now.

Definition q_update_personal_data (subjectId : SubjectId) (c : Ciphertext)
  (now : Timestamp) (d : DB) : unit * DB :=
  (tt, mkDB (map (fun s => if String.eqb (id s) subjectId
                           then set_personal_data c now s else s) (subjects d))
            (subject_keys d)
            (subject_processors d)).

Definition _saveSubjectEncryptionKey (subjectId : SubjectId) (encryptionKey : Key)
  : M unit :=
  statement (q_insert_key subjectId encryptionKey).

Definition _createNewSubject (personalData : json) (subjectId : SubjectId) : M unit :=
  encryptionKey <- generateClientKey ;;
  let encryptedPersonalData :=
    encryptForStorage (JSON_stringify personalData) encryptionKey in
  statement (q_insert_subject subjectId encryptedPersonalData) ;;
  _saveSubjectEncryptionKey subjectId encryptionKey.

Definition _updateExistingSubject (subjectId : SubjectId) (personalData : json)
  : M unit :=
  keys <- statement (q_key_by_subject subjectId) ;;
  encryptionKey <-
    match first_row keys with
    | Some subjectKey => ret (key subjectKey)
    | None =>
        k <- generateClientKey ;;
        _saveSubjectEncryptionKey subjectId k ;;
        ret k
    end ;;
  let encryptedPersonalData :=
    encryptForStorage (JSON_stringify personalData) encryptionKey in
  statement (q_update_personal_data subjectId encryptedPersonalData).

Definition _initializeUserInTransaction (subjectId : SubjectId) (personalData : json)
  : M unit :=
  rows <- statement (q_subject_by_id subjectId) ;;
  match first_row rows with
  | None => _createNewSubject personalData subjectId
  | Some _ => _updateExistingSubject subjectId personalData
  end.

Definition initializeUser (subjectId : SubjectId) (personalData : json) : M unit :=
  transaction (_initializeUserInTransaction subjectId personalData).

(** ** [listSubjects] *)

Definition PAGE_SIZE : Z := 10.

(** [Math.ceil(a / b)] on integers: [Z.div] rounds down. *)
Definition Math_ceil_div (a b : Z) : Z := (- ((- a) / b))%Z.

Definition isSome {A : Type} (o : option A) : bool :=
  match o with Some _ => true | None => false end.

(** The two joins of the listing with its three filters; the column
    [key] of the model has no null, so [whereNotNull('key')] keeps every
    row. *)
Definition listed (processorId : ProcessorId) (d : DB)
  : list (subject_row * subject_key_row * subject_processor_row) :=
  filter
    (fun r => Nat.eqb (processor_id (snd r)) processorId
              && isSome (personal_data (fst (fst r))))
    (flat_map
       (fun sk => map (fun p => (sk, p))
                      (filter (fun p => String.eqb (id (fst sk)) (sp_subject_id p))
                              (subject_processors d)))
       (join_keys d)).

Definition q_count_listed (processorId : ProcessorId) (_ : Timestamp) (d : DB)
  : Z * DB :=
  (Z.of_nat (length (listed processorId d)), d).

(** [orderBy('id', 'asc')]: a stable insertion sort on the subject id. *)
Fixpoint insert_by_id {A : Type} (f : A -> SubjectId) (x : A) (l : list A) : list A :=
  match l with
  | [] => [x]
  | y :: l' => if String.leb (f x) (f y) then x :: l else y :: insert_by_id f x l'
  end.

Definition order_by_id {A : Type} (f : A -> SubjectId) (l : list A) : list A :=
  fold_right (insert_by_id f) [] l.

Definition q_page_listed (processorId : ProcessorId) (offset : Z) (_ : Timestamp) (d : DB)
  : list (SubjectId * Timestamp) * DB :=
  (map (fun r => (id (fst (fst r)), created_at (fst (fst r))))
       (firstn (Z.to_nat PAGE_SIZE)
               (skipn (Z.to_nat offset)
                      (order_by_id (fun r => id (fst (fst r))) (listed processorId d)))),
   d).

Record Paging : Type := mkPaging { current : Z; total : Z }.

Record Listing : Type := mkListing {
  data : list (SubjectId * Timestamp);
  paging : Paging
}.

Definition string_of_Z (z : Z) : string := NilZero.string_of_int (Z.to_int z).

(** The page is an optional argument: [requestedPage = 1] in the
    signature. *)
Definition listSubjects (processorId : ProcessorId) (page : option Z) : M Listing :=
  let requestedPage := match page with Some p => p | None => 1%Z end in
  numberOfSubjects <- statement (q_count_listed processorId) ;;
  let totalPages := Math_ceil_div numberOfSubjects PAGE_SIZE in
  let totalPages := if Z.eqb totalPages 0 then 1%Z else totalPages in
  if Z.gtb requestedPage totalPages then
    throw (ValidationError
             ("page number too big, maximum page number is " ++ string_of_Z totalPages))
  else if Z.ltb requestedPage 1 then
    throw (ValidationError "Minimum page number is 1")
  else
    encryptedSubjectsData <-
      statement (q_page_listed processorId ((requestedPage - 1) * PAGE_SIZE)%Z) ;;
    ret (mkListing encryptedSubjectsData (mkPaging requestedPage totalPages)).

(** ** [restrict], [object] and their getters *)

Definition set_restrictions (dm ec r : bool) (s : subject_row) : subject_row :=
  mkSubject (id s) (personal_data s) dm ec r (objection s) (created_at s) (updated_at s).

Definition set_objection (o : option bool) (s : subject_row) : subject_row :=
  mkSubject (id s) (personal_data s) (direct_marketing s) (email_communication s)
            (research s) o (created_at s) (updated_at s).

(** [update] resolves to the number of rows it matched. *)
Definition q_update_where_id (subjectId : SubjectId) (f : subject_row -> subject_row)
  (_ : Timestamp) (d : DB) : nat * DB :=
  (length (filter (fun s => String.eqb (id s) subjectId) (subjects d)),
   mkDB (map (fun s => if String.eqb (id s) subjectId then f s else s) (subjects d))
        (subject_keys d)
        (subject_processors d)).

Definition restrict (subjectId : SubjectId)
  (directMarketing emailCommunication research_ : bool) : M unit :=
  subjectRestrictionsUpdates <-
    statement (q_update_where_id subjectId
                 (set_restrictions directMarketing emailCommunication research_)) ;;
  if Nat.eqb subjectRestrictionsUpdates 0 then throw (NotFound "Subject not found")
  else if Nat.ltb 1 subjectRestrictionsUpdates
       then throw (Forbidden "Duplicated subject in the database")
       else ret tt.

Record Restrictions : Type := mkRestrictions {
  r_direct_marketing : bool;
  r_email_communication : bool;
  r_research : bool
}.

Definition q_restrictions (subjectId : SubjectId) (_ : Timestamp) (d : DB)
  : list Restrictions * DB :=
  (map (fun s => mkRestrictions (direct_marketing s) (email_communication s) (research s))
       (filter (fun s => String.eqb (id s) subjectId) (subjects d)),
   d).

Definition getSubjectRestrictions (subjectId : SubjectId) : M Restrictions :=
  rows <- statement (q_restrictions subjectId) ;;
  match first_row rows with
  | None => throw (NotFound "Subject not found")
  | Some subjectRestrictions => ret subjectRestrictions
  end.

Definition object (subjectId : SubjectId) (objection_ : option bool) : M unit :=
  subjectObjectionUpdates <-
    statement (q_update_where_id subjectId (set_objection objection_)) ;;
  if Nat.eqb subjectObjectionUpdates 0 then throw (NotFound "Subject not found")
  else if Nat.ltb 1 subjectObjectionUpdates
       then throw (Forbidden "Duplicated subject in the database")
       else ret tt.

Definition q_objection (subjectId : SubjectId) (_ : Timestamp) (d : DB)
  : list (option bool) * DB :=
  (map objection (filter (fun s => String.eqb (id s) subjectId) (subjects d)), d).

Definition getSubjectObjection (subjectId : SubjectId) : M (option bool) :=
  rows <- statement (q_objection subjectId) ;;
  match first_row rows with
  | None => throw (NotFound "Subject not found")
  | Some subjectObjection => ret subjectObjection
  end.

End Service.

(** ** Reference collaborators

    Executable instances of the three interfaces, on which the service
    can be run: a serializer and a parser for compact JSON texts, a
    cipher that seals a text behind its key, and environments in which
    the store, the ledger or a single clock value fail. *)

Module Reference.

Definition dquote : ascii := ascii_of_nat 34.
Definition backslash : ascii := ascii_of_nat 92.

Fixpoint escape (s : string) : string :=
  match s with
  | EmptyString => EmptyString
  | String c s' =>
      if Ascii.eqb c dquote || Ascii.eqb c backslash
      then String backslash (String c (escape s'))
      else String c (escape s')
  end.

Definition quoted (s : string) : string :=
  String dquote (escape s ++ String dquote EmptyString).

Fixpoint stringify (v : json) : string :=
  match v with
  | JNull => "null"
  | JBool true => "true"
  | JBool false => "false"
  | JNum n => string_of_Z n
  | JNaN => "null"
  | JStr s => quoted s
  | JArr items =>
      "[" ++ (fix items_text (l : list json) : string :=
                match l with
                | [] => EmptyString
                | x :: l' =>
                    match l' with
                    | [] => stringify x
                    | _ :: _ => stringify x ++ "," ++ items_text l'
                    end
                end) items ++ "]"
  | JObj fields =>
      "{" ++ (fix fields_text (l : list (string * json)) : string :=
                match l with
                | [] => EmptyString
                | (name, x) :: l' =>
                    match l' with
                    | [] => quoted name ++ ":" ++ stringify x
                    | _ :: _ => quoted name ++ ":" ++ stringify x ++ "," ++ fields_text l'
                    end
                end) fields ++ "}"
  end.

(** The characters of a string literal up to its closing quote. *)
Fixpoint read_string (s : string) : option (string * string) :=
  match s with
  | EmptyString => None
  | String c s' =>
      if Ascii.eqb c dquote then Some (EmptyString, s')
      else if Ascii.eqb c backslash then
        match s' with
        | EmptyString => None
        | String e s'' =>
            match read_string s'' with
            | Some (txt, rest) => Some (String e txt, rest)
            | None => None
            end
        end
      else
        match read_string s' with
        | Some (txt, rest) => Some (String c txt, rest)
        | None => None
        end
  end.

Definition digit_of (c : ascii) : option Z :=
  let n := nat_of_ascii c in
  if ((48 <=? n)%nat && (n <=? 57)%nat)%bool then Some (Z.of_nat (n - 48)) else None.

Fixpoint read_digits (acc : Z) (s : string) : Z * string :=
  match s with
  | EmptyString => (acc, s)
  | String c s' =>
      match digit_of c with
      | Some dgt => read_digits (10 * acc + dgt)%Z s'
      | None => (acc, s)
      end
  end.

Definition read_number (s : string) : option (Z * string) :=
  match s with
  | String "-" (String c s') =>
      match digit_of c with
      | Some dgt => let (n, rest) := read_digits dgt s' in Some ((- n)%Z, rest)
      | None => None
      end
  | String c s' =>
      match digit_of c with
      | Some dgt => Some (read_digits dgt s')
      | None => None
      end
  | EmptyString => None
  end.

Definition strip (pre s : string) : option string :=
  if String.prefix pre s
  then Some (String.substring (String.length pre) (String.length s - String.length pre) s)
  else None.

Fixpoint read_value (fuel : nat) (s : string) : option (json * string) :=
  match fuel with
  | O => None
  | S fuel' =>
      match s with
      | EmptyString => None
      | String c s' =>
          if Ascii.eqb c "n" then option_map (pair JNull) (strip "ull" s')
          else if Ascii.eqb c "t" then option_map (pair (JBool true)) (strip "rue" s')
          else if Ascii.eqb c "f" then option_map (pair (JBool false)) (strip "alse" s')
          else if Ascii.eqb c dquote then
            option_map (fun r => (JStr (fst r), snd r)) (read_string s')
          else if Ascii.eqb c "[" then
            match s' with
            | String "]" rest => Some (JArr [], rest)
            | _ => option_map (fun r => (JArr (fst r), snd r)) (read_items fuel' s')
            end
          else if Ascii.eqb c "{" then
            match s' with
            | String "}" rest => Some (JObj [], rest)
            | _ => option_map (fun r => (JObj (fst r), snd r)) (read_fields fuel' s')
            end
          else option_map (fun r => (JNum (fst r), snd r)) (read_number s)
      end
  end
with read_items (fuel : nat) (s : string) : option (list json * string) :=
  match fuel with
  | O => None
  | S fuel' =>
      match read_value fuel' s with
      | Some (v, String "," rest) =>
          option_map (fun r => (v :: fst r, snd r)) (read_items fuel' rest)
      | Some (v, String "]" rest) => Some ([v], rest)
      | _ => None
      end
  end
with read_fields (fuel : nat) (s : string) : option (list (string * json) * string) :=
  match fuel with
  | O => None
  | S fuel' =>
      match s with
      | String q s' =>
          if Ascii.eqb q dquote then
            match read_string s' with
            | Some (name, String ":" s'') =>
                match read_value fuel' s'' with
                | Some (v, String "," rest) =>
                    option_map (fun r => ((name, v) :: fst r, snd r)) (read_fields fuel' rest)
                | Some (v, String "}" rest) => Some ([(name, v)], rest)
                | _ => None
                end
            | _ => None
            end
          else None
      | EmptyString => None
      end
  end.

Definition parse (s : string) : option json :=
  match read_value (2 * String.length s + 2) s with
  | Some (v, EmptyString) => Some v
  | _ => None
  end.

#[export] Instance compact_json : Json :=
  {| JSON_stringify := stringify; JSON_parse := parse |}.

(** A cipher that seals the text behind the key: opening it with another
    key, or opening a null column, fails. *)
Definition seal (plaintext : string) (k : Key) : Ciphertext := k ++ plaintext.

Fixpoint unseal (k : Key) (c : Ciphertext) : option string :=
  match k with
  | EmptyString => Some c
  | String a k' =>
      match c with
      | EmptyString => None
      | String b c' => if Ascii.eqb a b then unseal k' c' else None
      end
  end.

#[export] Instance sealing : Encryption :=
  {| encryptForStorage := seal;
     decryptFromStorage := fun c k => match c with Some c => unseal k c | None => None end |}.

Definition key_of_tick (n : nat) : Key := "key-" ++ string_of_Z (Z.of_nat n).

(** Nothing fails. *)
Definition calm : Environment :=
  {| store_ok := fun _ => true; ledger_ok := fun _ => true; key_source := key_of_tick |}.

(** The ledger rejects every call. *)
Definition ledger_down : Environment :=
  {| store_ok := fun _ => true; ledger_ok := fun _ => false; key_source := key_of_tick |}.

(** The store rejects what it is asked at clock value [t]. *)
Definition store_down_at (t : nat) : Environment :=
  {| store_ok := fun n => negb (Nat.eqb n t);
     ledger_ok := fun _ => true;
     key_source := key_of_tick |}.

Definition empty_db : DB := mkDB [] [] [].

Definition world0 : World := mkWorld empty_db [] 0.

Definition alice : json := JObj [("name", JStr "Alice")].

(** A payload [JSON] does not read back: its score is [NaN]. *)
Definition unscored : json := JObj [("name", JStr "Carol"); ("score", JNaN)].

(** What [JSON.parse] makes of the text of [unscored]. *)
Definition unscored_read_back : json := JObj [("name", JStr "Carol"); ("score", JNull)].
Definition bob : json := JObj [("name", JStr "Bob"); ("age", JNum 42)].

(** A store with one subject, its key and two processor associations. *)
Definition db1 : DB :=
  mkDB [mkSubject "s1" (Some (seal (stringify alice) "k1")) true true true None 0 0]
       [mkSubjectKey "s1" "k1"]
       [mkSubjectProcessor "s1" 7; mkSubjectProcessor "s1" 8].

Definition world1 : World := mkWorld db1 [] 0.

(** A store in which the id ["dup"] is carried by two rows. *)
Definition db_dup : DB :=
  mkDB [mkSubject "dup" None true true true None 0 0;
        mkSubject "dup" None false false false None 1 1]
       [] [].

End Reference.

Local Open Scope list_scope.

(** ** Observations on runs *)

(** The events a run from [w] to [w'] added to the trace. *)
Definition events_of_run (w w' : World) : list Event :=
  skipn (length (trace w)) (trace w').

(** The subject ids the ledger was called with, in order. *)
Fixpoint ledger_calls (evs : list Event) : list SubjectId :=
  match evs with
  | [] => []
  | LedgerCall s :: evs' => s :: ledger_calls evs'
  | _ :: evs' => ledger_calls evs'
  end.

(** The keys that were generated, in order. *)
Fixpoint keys_generated (evs : list Event) : list Key :=
  match evs with
  | [] => []
  | KeyGenerated k :: evs' => k :: keys_generated evs'
  | _ :: evs' => keys_generated evs'
  end.

(** Every ledger call of [evs] has a commit before it. *)
Definition notified_only_after_commit (evs : list Event) : Prop :=
  forall pre s post, evs = pre ++ LedgerCall s :: post -> In Commit pre.

(** The rows of a subject in each table. *)
Definition rows_of (subjectId : SubjectId) (d : DB) : list subject_row :=
  filter (fun s => String.eqb (id s) subjectId) (subjects d).

Definition keys_of (subjectId : SubjectId) (d : DB) : list subject_key_row :=
  filter (fun k => String.eqb (key_subject_id k) subjectId) (subject_keys d).

Definition processors_of (subjectId : SubjectId) (d : DB) : list subject_processor_row :=
  filter (fun p => String.eqb (sp_subject_id p) subjectId) (subject_processors d).

(** The id and the three consent flags of a subject row. *)
Definition consent_of (s : subject_row) : SubjectId * (bool * bool * bool) :=
  (id s, (direct_marketing s, email_communication s, research s)).

(** The tables after the two deletions of an erasure. *)
Definition erased (subjectId : SubjectId) (d : DB) : DB :=
  mkDB (subjects d)
       (filter (fun k => negb (String.eqb (key_subject_id k) subjectId)) (subject_keys d))
       (filter (fun p => negb (String.eqb (sp_subject_id p) subjectId))
               (subject_processors d)).

(** The discipline of the table of keys: a subject has at most one key
    row, and none when it has no row in the table of subjects. *)
Definition key_discipline (d : DB) : Prop :=
  forall subjectId,
    length (keys_of subjectId d) <= 1
    /\ (rows_of subjectId d = [] -> keys_of subjectId d = []).

(** The total of pages [listSubjects] reports for a count of matching
    rows. *)
Definition page_total (numberOfSubjects : Z) : Z :=
  let totalPages := Math_ceil_div numberOfSubjects PAGE_SIZE in
  if Z.eqb totalPages 0 then 1%Z else totalPages.

Definition erasure_message : string := "Emitting erasure event to blockchain".

(** [world1] after a successful erasure of its subject. *)
Definition world1_erased : World :=
  mkWorld (erased "s1" Reference.db1)
          [Begin; Info erasure_message; LedgerCall "s1"; Commit] 4.

Section Written.

Context {enc : Encryption} {js : Json}.

(** The row [_createNewSubject] inserts, and the table of subjects after
    the update of [_updateExistingSubject]. *)
Definition created_subject (subjectId : SubjectId) (personalData : json) (k : Key)
  (now : Timestamp) : subject_row :=
  mkSubject subjectId (Some (encryptForStorage (JSON_stringify personalData) k))
            true true true None now now.

Definition rewritten (subjectId : SubjectId) (personalData : json) (k : Key)
  (now : Timestamp) (l : list subject_row) : list subject_row :=
  map (fun s => if String.eqb (id s) subjectId
                then set_personal_data
                       (encryptForStorage (JSON_stringify personalData) k) now s
                else s) l.

(** What [getSubjectData] makes of the text [JSON.stringify] wrote for a
    payload. *)
Definition read_back (personalData : json) : Outcome json :=
  match JSON_parse (JSON_stringify personalData) with
  | Some v => Resolved v
  | None => Rejected SyntaxError
  end.

End Written.

(** [world0] after [initializeUser] for subject ["s1"] with [alice], and
    after a second one with [bob], in the calm environment. *)
Definition world0_alice : World :=
  Eval vm_compute in
    snd (@initializeUser Reference.calm Reference.sealing Reference.compact_json
           "s1" Reference.alice Reference.world0).

(** [world0] after [initializeUser] with [unscored], and [world0_alice]
    after a second [initializeUser] with [unscored]. *)
Definition world0_unscored : World :=
  Eval vm_compute in
    snd (@initializeUser Reference.calm Reference.sealing Reference.compact_json
           "s1" Reference.unscored Reference.world0).



From Stdlib Require Import Sorting.Sorted Sorting.Permutation.

(** ** Callers of the service *)

(** A call of one of the eight public methods. *)
Inductive Call : Type :=
| CallGetSubjectData (subjectId : SubjectId)
| CallInitializeUser (subjectId : SubjectId) (personalData : json)
| CallListSubjects (processorId : ProcessorId) (page : option Z)
| CallErase (subjectId : SubjectId)
| CallRestrict (subjectId : SubjectId)
    (directMarketing emailCommunication research_ : bool)
| CallGetSubjectRestrictions (subjectId : SubjectId)
| CallObject (subjectId : SubjectId) (objection_ : option bool)
| CallGetSubjectObjection (subjectId : SubjectId).

(** What a caller that keeps track of its own calls expects the vault to
    hold: the payload of the last resolved [initializeUser] of a subject,
    unless a resolved erasure came after it. *)
Definition Expected : Type := SubjectId -> option json.

Definition nothing_expected : Expected := fun _ => None.

Definition track (c : Call) (ok : bool) (m : Expected) : Expected :=
  match c, ok with
  | CallInitializeUser s p, true => fun s' => if String.eqb s' s then Some p else m s'
  | CallErase s, true => fun s' => if String.eqb s' s then None else m s'
  | _, _ => m
  end.

Definition is_resolved {A : Type} (r : Outcome A) : bool :=
  match r with Resolved _ => true | Rejected _ => false end.

Section Callers.

Context {env : Environment} {enc : Encryption} {js : Json}.

(** A call run to its end: whether it resolved, and the world after. *)
Definition perform (c : Call) (w : World) : bool * World :=
  match c with
  | CallGetSubjectData s =>
      let r := getSubjectData s w in (is_resolved (fst r), snd r)
  | CallInitializeUser s p =>
      let r := initializeUser s p w in (is_resolved (fst r), snd r)
  | CallListSubjects p page =>
      let r := listSubjects p page w in (is_resolved (fst r), snd r)
  | CallErase s =>
      let r := eraseDataAndRevokeConsent s w in (is_resolved (fst r), snd r)
  | CallRestrict s dm ec rs =>
      let r := restrict s dm ec rs w in (is_resolved (fst r), snd r)
  | CallGetSubjectRestrictions s =>
      let r := getSubjectRestrictions s w in (is_resolved (fst r), snd r)
  | CallObject s o =>
      let r := object s o w in (is_resolved (fst r), snd r)
  | CallGetSubjectObjection s =>
      let r := getSubjectObjection s w in (is_resolved (fst r), snd r)
  end.

(** A sequence of calls, one after the other, each awaited. *)
Fixpoint perform_all (cs : list Call) (mw : Expected * World) : Expected * World :=
  match cs with
  | [] => mw
  | c :: cs' =>
      let r := perform c (snd mw) in
      perform_all cs' (track c (fst r) (fst mw), snd r)
  end.

(** The payload of every [initializeUser] among the calls is read back
    by [JSON.parse] from what [JSON.stringify] writes for it. *)
Definition payload_round_trips (c : Call) : Prop :=
  match c with
  | CallInitializeUser _ p => JSON_parse (JSON_stringify p) = Some p
  | _ => True
  end.

(** The cipher opens under a key what it sealed under it. *)
Definition cipher_round_trips : Prop :=
  forall text k, decryptFromStorage (Some (encryptForStorage text k)) k = Some text.

(** What ties a store to what the caller expects: ids are unique in the
    table of subjects; an expected payload is held by the one row of its
    subject, sealed under the key of its one key row; a subject nothing
    is expected of has no key row. *)
Definition holds (m : Expected) (d : DB) : Prop :=
  NoDup (map id (subjects d))
  /\ forall subjectId,
       match m subjectId with
       | Some p =>
           JSON_parse (JSON_stringify p) = Some p
           /\ exists s k,
                rows_of subjectId d = [s]
                /\ keys_of subjectId d = [mkSubjectKey subjectId k]
                /\ personal_data s = Some (encryptForStorage (JSON_stringify p) k)
       | None => keys_of subjectId d = []
       end.

End Callers.

(** The rows of a listing, as [listSubjects] selects them, before the
    page is cut out: ordered by id, projected on id and creation time. *)
Definition listed_rows (processorId : ProcessorId) (d : DB)
  : list (SubjectId * Timestamp) :=
  map (fun r => (id (fst (fst r)), created_at (fst (fst r))))
      (order_by_id (fun r => id (fst (fst r))) (listed processorId d)).

(** The data of a settled listing, nothing when it was rejected. *)
Definition data_of (r : Outcome Listing) : list (SubjectId * Timestamp) :=
  match r with
  | Resolved l => data l
  | Rejected _ => []
  end.

(** Ascending ids, as the store compares them. *)
Definition id_le (a b : SubjectId * Timestamp) : Prop :=
  String.leb (fst a) (fst b) = true.

(** A row of table [subjects] without its three consent flags, and
    without its objection. *)
Definition beside_restrictions (s : subject_row)
  : SubjectId * option Ciphertext * option bool * Timestamp * Timestamp :=
  (id s, personal_data s, objection s, created_at s, updated_at s).

Definition beside_objection (s : subject_row)
  : SubjectId * option Ciphertext * (bool * bool * bool) * Timestamp * Timestamp :=
  (id s, personal_data s, (direct_marketing s, email_communication s, research s),
   created_at s, updated_at s).

(** ** The processors provider of the admin console

    [ProcessorsProvider] is a React component that keeps the list of
    processors and a loading flag, and talks to the management API
    through [internalFetch].  Its methods are asynchronous; each is
    embedded up to the point where it is settled.  [refreshProcessors]
    starts [fetchProcessors] without awaiting it: the request is sent at
    once and what follows its answer waits in [pending] until the
    promises are flushed. *)

Module ProcessorsProvider.

Inductive Method : Type := POST | PUT | DELETE.

(** The second argument of [internalFetch]. *)
Record Options : Type := mkOptions { method : Method; body : string }.

Record Request : Type := mkRequest { url : string; options : option Options }.

(** How a promise settles: with a value, or with an [Error] and its
    message. *)
Inductive Settled (A : Type) : Type :=
| Fulfilled (a : A)
| Failed (message : string).
Arguments Fulfilled {A} a.
Arguments Failed {A} message.

(** What the component lets the outside see, beside its state. *)
Inductive Seen : Type :=
| Sent (r : Request)
| ToastSuccess (msg : string).

(** The two data fields of [this.state]; the other four hold the
    methods. *)
Record State : Type := mkState { processors : json; isLoading : bool }.

Definition initial_state : State := mkState (JArr []) false.

(** The component with its surroundings: its state, what was seen, the
    number of requests sent so far, and the requests whose answer a
    [fetchProcessors] that nobody awaits is waiting for. *)
Record Ui : Type := mkUi {
  state : State;
  seen : list Seen;
  sent : nat;
  pending : list nat
}.

(** [config.API_URL], and [internalFetch] of [helpers/internal-fetch] as
    the tests of the console mock it: the promise of the parsed answer,
    or a rejection with an [Error].  The backend settles each request,
    numbered in the order they are sent. *)
Class Backend : Type := {
  API_URL : string;
  answer : nat -> Settled json
}.

Section Provider.

Context {backend : Backend} {js : Json}.

Definition setState (f : State -> State) (w : Ui) : Ui :=
  mkUi (f (state w)) (seen w) (sent w) (pending w).

Definition toast_success (msg : string) (w : Ui) : Ui :=
  mkUi (state w) (seen w ++ [ToastSuccess msg]) (sent w) (pending w).

(** The call sends the request and gives its promise, here the number of
    the request. *)
Definition internalFetch (r : Request) (w : Ui) : nat * Ui :=
  (sent w, mkUi (state w) (seen w ++ [Sent r]) (S (sent w)) (pending w)).

Definition endpoint : string := (API_URL ++ "/api/management/processors")%string.

Definition setLoading (loading : bool) (w : Ui) : Ui :=
  setState (fun s => mkState (processors s) loading) w.

Definition cancelLoadingAndReject {A : Type} (e : string) (w : Ui) : Settled A * Ui :=
  (Failed e, setLoading false w).

Definition _getProcessors (w : Ui) : nat * Ui :=
  internalFetch (mkRequest endpoint None) w.

Definition _addProcessor (processor : json) (w : Ui) : nat * Ui :=
  internalFetch (mkRequest endpoint (Some (mkOptions POST (JSON_stringify processor)))) w.

Definition _updateProcessor (processor : json) (w : Ui) : nat * Ui :=
  internalFetch (mkRequest endpoint (Some (mkOptions PUT (JSON_stringify processor)))) w.

(** An [async] method without [return]: it resolves to [undefined],
    here [None], once its request is answered. *)
Definition _deleteProcessor (processorId : json) (w : Ui) : Settled (option json) * Ui :=
  let (promise, w1) :=
    internalFetch
      (mkRequest endpoint
         (Some (mkOptions DELETE
                  (JSON_stringify (JObj [("processorIds", JArr [processorId])])))))
      w in
  match answer promise with
  | Fulfilled _ => (Fulfilled None, w1)
  | Failed e => (Failed e, w1)
  end.

(** [fetchProcessors] up to its [await], and from there on. *)
Definition fetchProcessors_begin (w : Ui) : nat * Ui :=
  _getProcessors (setLoading true w).

Definition fetchProcessors_resume (promise : nat) (w : Ui) : Settled unit * Ui :=
  match answer promise with
  | Fulfilled processors_ =>
      (Fulfilled tt, setState (fun _ => mkState processors_ false) w)
  | Failed e => (Failed e, w)
  end.

(** [fetchProcessors], awaited. *)
Definition fetchProcessors (w : Ui) : Settled unit * Ui :=
  let (promise, w1) := fetchProcessors_begin w in
  fetchProcessors_resume promise w1.

(** [fetchProcessors], started and left to itself; its outcome is
    dropped by [.then(() => {}).catch(() => {})]. *)
Definition refreshProcessors (w : Ui) : Ui :=
  let (promise, w1) := fetchProcessors_begin w in
  mkUi (state w1) (seen w1) (sent w1) (pending w1 ++ [promise]).

(** The pending promises settle, in the order of their requests. *)
Definition flushPromises (w : Ui) : Ui :=
  fold_left (fun w1 promise => snd (fetchProcessors_resume promise w1))
            (pending w)
            (mkUi (state w) (seen w) (sent w) []).

Definition addProcessor (processor : json) (w : Ui) : Settled json * Ui :=
  let (promise, w1) := _addProcessor processor w in
  match answer promise with
  | Failed e => cancelLoadingAndReject e w1
  | Fulfilled newProcessor =>
      (Fulfilled newProcessor,
       refreshProcessors (toast_success "Processor successfully added." w1))
  end.

Definition updateProcessor (processor : json) (w : Ui) : Settled json * Ui :=
  let (promise, w1) := _updateProcessor processor w in
  match answer promise with
  | Failed e => cancelLoadingAndReject e w1
  | Fulfilled updatedProcessor =>
      (Fulfilled updatedProcessor,
       refreshProcessors (toast_success "Processor successfully updated." w1))
  end.

Definition deleteProcessor (processor : json) (w : Ui) : Settled (option json) * Ui :=
  match _deleteProcessor processor w with
  | (Failed e, w1) => cancelLoadingAndReject e w1
  | (Fulfilled isDeleted, w1) =>
      (Fulfilled isDeleted,
       refreshProcessors (toast_success "Processor successfully deleted." w1))
  end.

End Provider.

(** A backend that answers every request with the same list, one that
    fails every request, and one that takes the first request and fails
    the others. *)
Definition two_processors : json :=
  JArr [JObj [("id", JNum 1); ("name", JStr "acme")];
        JObj [("id", JNum 2); ("name", JStr "globex")]].

Definition steady : Backend :=
  {| API_URL := "http://api"; answer := fun _ => Fulfilled two_processors |}.

Definition down : Backend :=
  {| API_URL := "http://api"; answer := fun _ => Failed "Error message" |}.

Definition flaky : Backend :=
  {| API_URL := "http://api";
     answer := fun n => if Nat.eqb n 0 then Fulfilled two_processors
                        else Failed "Error message" |}.

Definition mounted : Ui := mkUi initial_state [] 0 [].

End ProcessorsProvider.

(** ** More runs *)

(** A caller's afternoon: two subjects are stored, the first is
    restricted and erased, the second is stored again. *)
Definition story : list Call :=
  [CallInitializeUser "s1" Reference.alice;
   CallInitializeUser "s2" Reference.bob;
   CallRestrict "s1" false true false;
   CallErase "s1";
   CallInitializeUser "s2" Reference.alice;
   CallGetSubjectData "s1"].

(** [world1] after [initializeUser] for a second subject, and
    [world1_erased] after [initializeUser] for the erased one. *)
Definition world1_s2 : World :=
  Eval vm_compute in
    snd (@initializeUser Reference.calm Reference.sealing Reference.compact_json
           "s2" Reference.bob Reference.world1).

Definition world1_s2_erased : World :=
  Eval vm_compute in snd (@eraseDataAndRevokeConsent Reference.calm "s2" world1_s2).

Definition world1_again : World :=
  Eval vm_compute in
    snd (@initializeUser Reference.calm Reference.sealing Reference.compact_json
           "s1" Reference.bob world1_erased).

(** Twelve subjects, all with a key and all associated with processor 7. *)
Definition subject_name (n : nat) : SubjectId :=
  ("subject-" ++ string_of_Z (Z.of_nat n))%string.

Definition db12 : DB :=
  mkDB (map (fun n => mkSubject (subject_name n) (Some "sealed") true true true None n n)
            (seq 0 12))
       (map (fun n => mkSubjectKey (subject_name n) "k") (seq 0 12))
       (map (fun n => mkSubjectProcessor (subject_name n) 7) (seq 0 12)).

Definition world12 : World := mkWorld db12 [] 0.

Definition page2_of_world12 : Listing :=
  Eval vm_compute in
    mkListing (data_of (fst (@listSubjects Reference.calm 7 (Some 2%Z) world12)))
              (mkPaging 2 2).

(** * Properties *)

Lemma skipn_length_app {A : Type} (l l' : list A) : skipn (length l) (l ++ l') = l'.
Proof. induction l as [|x l IH]; simpl; auto. Qed.

Lemma events_of_run_app (w w' : World) (evs : list Event) :
  trace w' = trace w ++ evs -> events_of_run w w' = evs.
Proof. intros E. unfold events_of_run. rewrite E. apply skipn_length_app. Qed.

Lemma filter_none {A : Type} (f : A -> bool) (l : list A) :
  (forall x, In x l -> f x = false) -> filter f l = [].
Proof.
  induction l as [|x l IH]; simpl; intros H; auto.
  rewrite (H x (or_introl eq_refl)). apply IH. intros y Hy. apply H. now right.
Qed.

Section Properties.

Context {env : Environment} {enc : Encryption} {js : Json}.

Lemma statement_accepted {A : Type} (q : Timestamp -> DB -> A * DB) (w : World) :
  store_ok (tick w) = true ->
  statement q w =
    (Resolved (fst (q (tick w) (store w))),
     advance (with_store (snd (q (tick w) (store w))) w)).
Proof. intros H. unfold statement. rewrite H. destruct (q (tick w) (store w)). reflexivity. Qed.

Lemma statement_rejected {A : Type} (q : Timestamp -> DB -> A * DB) (w : World) :
  store_ok (tick w) = false -> statement q w = (Rejected StoreError, advance w).
Proof. intros H. unfold statement. now rewrite H. Qed.

(** The five ways a run of [eraseDataAndRevokeConsent] can go. *)
Lemma erase_run (subjectId : SubjectId) (w : World) :
  eraseDataAndRevokeConsent subjectId w =
    let t := tick w in
    if store_ok t then
      if store_ok (1 + t) then
        if ledger_ok (2 + t) then
          if store_ok (3 + t) then
            (Resolved tt,
             mkWorld (erased subjectId (store w))
                     (trace w ++ [Begin; Info erasure_message; LedgerCall subjectId; Commit])
                     (4 + t))
          else
            (Rejected StoreError,
             mkWorld (store w)
                     (trace w ++ [Begin; Info erasure_message; LedgerCall subjectId; Rollback])
                     (4 + t))
        else
          (Rejected LedgerError,
           mkWorld (store w)
                   (trace w ++ [Begin; Info erasure_message; LedgerCall subjectId; Rollback])
                   (4 + t))
      else (Rejected StoreError, mkWorld (store w) (trace w ++ [Begin; Rollback]) (3 + t))
    else (Rejected StoreError, mkWorld (store w) (trace w ++ [Begin; Rollback]) (2 + t)).
Proof.
  unfold eraseDataAndRevokeConsent, transaction, bind, statement, winston_info,
    recordErasureByProcessor, emit, advance, with_store; simpl.
  destruct (store_ok (tick w)); simpl.
  - destruct (store_ok (S (tick w))); simpl.
    + destruct (ledger_ok (S (S (tick w)))); simpl.
      * destruct (store_ok (S (S (S (tick w))))); simpl;
          repeat rewrite <- app_assoc; reflexivity.
      * repeat rewrite <- app_assoc; reflexivity.
    + repeat rewrite <- app_assoc; reflexivity.
  - repeat rewrite <- app_assoc; reflexivity.
Qed.

Lemma split_at_ledger_call (m : string) (subjectId s : SubjectId) (x : Event)
  (pre post : list Event) :
  (forall s', x <> LedgerCall s') ->
  [Begin; Info m; LedgerCall subjectId; x] = pre ++ LedgerCall s :: post ->
  pre = [Begin; Info m] /\ s = subjectId /\ post = [x].
Proof.
  intros Hx E.
  destruct pre as [|a [|b [|c [|e pre]]]]; simpl in E; try discriminate.
  - inversion E; subst. auto.
  - inversion E; subst. exfalso. now apply (Hx s).
  - inversion E as [[Ea Eb Ec Ee Ep]]. destruct pre; discriminate.
Qed.

Lemma no_ledger_call_in_aborted_run (pre post : list Event) (s : SubjectId) :
  [Begin; Rollback] <> pre ++ LedgerCall s :: post.
Proof.
  intros E. destruct pre as [|a [|b [|c pre]]]; simpl in E; discriminate.
Qed.

(** C1, as amended.  A run of [eraseDataAndRevokeConsent] calls the
    ledger exactly once, for its own subject id, when the store accepts
    its two deletions, and not at all otherwise; a successful run has
    therefore exactly one call.  The call is made inside the transaction:
    its only predecessors in the run are the opening of the transaction
    and the log line, and the commit or the rollback follows it.  A run
    that does not succeed leaves the tables as they were. *)
Theorem erase_notifies_inside_transaction
  (subjectId : SubjectId) (w w' : World) (r : Outcome unit) :
  eraseDataAndRevokeConsent subjectId w = (r, w') ->
  ledger_calls (events_of_run w w') =
    (if store_ok (tick w) && store_ok (1 + tick w) then [subjectId] else [])
  /\ (r = Resolved tt -> ledger_calls (events_of_run w w') = [subjectId])
  /\ (forall pre s post,
        events_of_run w w' = pre ++ LedgerCall s :: post ->
        pre = [Begin; Info erasure_message] /\ s = subjectId
        /\ (post = [Commit] \/ post = [Rollback]))
  /\ (r <> Resolved tt -> store w' = store w).
Proof.
  rewrite erase_run. cbv zeta.
  destruct (store_ok (tick w)); [destruct (store_ok (1 + tick w));
    [destruct (ledger_ok (2 + tick w)); [destruct (store_ok (3 + tick w))|]|]|];
    intros E; injection E as Er Ew; subst r w';
    (erewrite events_of_run_app by (simpl; reflexivity));
    (split; [reflexivity|]); (split; [try reflexivity; discriminate|]);
    (split; [|intros H; try reflexivity; now elim H]).
  - intros pre s post E.
    apply split_at_ledger_call in E; [|discriminate]. intuition.
  - intros pre s post E.
    apply split_at_ledger_call in E; [|discriminate]. intuition.
  - intros pre s post E.
    apply split_at_ledger_call in E; [|discriminate]. intuition.
  - intros pre s post E. now apply no_ledger_call_in_aborted_run in E.
  - intros pre s post E. now apply no_ledger_call_in_aborted_run in E.
Qed.

(** C2, as amended.  When the store accepts the two deletions and the
    ledger rejects the call, [eraseDataAndRevokeConsent] is rejected with
    the ledger's error and the transaction is rolled back: the tables are
    those from before the call. *)
Theorem erase_rejected_when_ledger_fails (subjectId : SubjectId) (w : World) :
  store_ok (tick w) = true ->
  store_ok (1 + tick w) = true ->
  ledger_ok (2 + tick w) = false ->
  exists w',
    eraseDataAndRevokeConsent subjectId w = (Rejected LedgerError, w')
    /\ store w' = store w
    /\ events_of_run w w'
       = [Begin; Info erasure_message; LedgerCall subjectId; Rollback].
Proof.
  intros H0 H1 H2. rewrite erase_run. cbv zeta. rewrite H0, H1, H2.
  eexists. split; [reflexivity|]. split; [reflexivity|].
  now apply events_of_run_app.
Qed.

Lemma In_join_keys (d : DB) (s : subject_row) (k : subject_key_row) :
  In (s, k) (join_keys d) <->
  In s (subjects d) /\ In k (subject_keys d) /\ id s = key_subject_id k.
Proof.
  unfold join_keys. rewrite in_flat_map. split.
  - intros (s' & Hs & Hk). apply in_map_iff in Hk as (k' & E & Hk).
    injection E as -> ->. apply filter_In in Hk as (Hk & Heq).
    apply String.eqb_eq in Heq. auto.
  - intros (Hs & Hk & E). exists s. split; auto.
    apply in_map_iff. exists k. split; auto.
    apply filter_In. split; auto. now apply String.eqb_eq.
Qed.

(** A subject without a row or without a key row is not found. *)
Lemma getSubjectData_not_found (subjectId : SubjectId) (w : World) :
  store_ok (tick w) = true ->
  rows_of subjectId (store w) = [] \/ keys_of subjectId (store w) = [] ->
  getSubjectData subjectId w = (Rejected (NotFound "Subject not found"), advance w).
Proof.
  intros Hok Hnone. unfold getSubjectData, bind.
  rewrite (statement_accepted _ _ Hok). unfold q_subject_data; simpl.
  rewrite filter_none; [destruct w; reflexivity|].
  intros (s, k) Hin. simpl. apply In_join_keys in Hin as (Hs & Hk & E).
  destruct (String.eqb (key_subject_id k) subjectId) eqn:Ek; auto.
  apply String.eqb_eq in Ek. exfalso. destruct Hnone as [Hn | Hn].
  - assert (Hin : In s (rows_of subjectId (store w))).
    { apply filter_In. split; auto. apply String.eqb_eq. congruence. }
    rewrite Hn in Hin. inversion Hin.
  - assert (Hin : In k (keys_of subjectId (store w))).
    { apply filter_In. split; auto. now apply String.eqb_eq. }
    rewrite Hn in Hin. inversion Hin.
Qed.

Lemma filter_negb_none {A : Type} (f : A -> bool) (l : list A) :
  filter f (filter (fun x => negb (f x)) l) = [].
Proof.
  apply filter_none. intros x Hx. apply filter_In in Hx as (_ & Hx).
  now destruct (f x).
Qed.

(** C5.  After a successful [eraseDataAndRevokeConsent] the subject has
    no key row and no processor association row, the table of subjects
    is the one from before the call, row for row, and [getSubjectData]
    for the subject is rejected with [NotFound]. *)
Theorem erase_shreds_key_and_keeps_subject (subjectId : SubjectId) (w w' : World) :
  eraseDataAndRevokeConsent subjectId w = (Resolved tt, w') ->
  keys_of subjectId (store w') = []
  /\ processors_of subjectId (store w') = []
  /\ subjects (store w') = subjects (store w)
  /\ (store_ok (tick w') = true ->
      getSubjectData subjectId w'
      = (Rejected (NotFound "Subject not found"), advance w')).
Proof.
  rewrite erase_run. cbv zeta.
  destruct (store_ok (tick w)); [destruct (store_ok (1 + tick w));
    [destruct (ledger_ok (2 + tick w)); [destruct (store_ok (3 + tick w))|]|]|];
    intros E; try discriminate.
  injection E as Ew. subst w'.
  assert (Hk : keys_of subjectId (erased subjectId (store w)) = []).
  { unfold keys_of, erased; simpl.
    apply (filter_negb_none (fun k => String.eqb (key_subject_id k) subjectId)). }
  split; [exact Hk|]. split.
  - unfold processors_of, erased; simpl.
    apply (filter_negb_none (fun p => String.eqb (sp_subject_id p) subjectId)).
  - split; [reflexivity|]. intros Hok.
    apply getSubjectData_not_found; auto.
Qed.

(** *** What [getSubjectData] reads *)

Lemma join_rows_of_subject (subjectId : SubjectId) (d : DB) :
  filter (fun sk => String.eqb (key_subject_id (snd sk)) subjectId) (join_keys d)
  = flat_map (fun s => map (fun k => (s, k)) (keys_of subjectId d)) (rows_of subjectId d).
Proof.
  unfold join_keys, rows_of, keys_of.
  induction (subjects d) as [|s l IH]; simpl; auto.
  rewrite filter_app, IH. clear IH.
  destruct (String.eqb (id s) subjectId) eqn:Es; simpl.
  - apply String.eqb_eq in Es. subst subjectId. f_equal.
    induction (subject_keys d) as [|k ks IHk]; simpl; auto.
    rewrite (String.eqb_sym (key_subject_id k) (id s)).
    destruct (String.eqb (id s) (key_subject_id k)) eqn:Ek; simpl; auto.
    rewrite (String.eqb_sym (key_subject_id k) (id s)), Ek. now f_equal.
  - rewrite filter_none; auto.
    intros (s', k) Hin. apply in_map_iff in Hin as (k' & E & Hin).
    injection E as -> ->. apply filter_In in Hin as (_ & Hin). simpl.
    apply String.eqb_eq in Hin. rewrite <- Hin. exact Es.
Qed.

(** The row [getSubjectData] decrypts pairs the first row of the subject
    with its first key row. *)
Lemma getSubjectData_reads (subjectId : SubjectId) (w : World) :
  store_ok (tick w) = true ->
  getSubjectData subjectId w =
    match rows_of subjectId (store w), keys_of subjectId (store w) with
    | s :: _, k :: _ =>
        match decryptFromStorage (personal_data s) (key k) with
        | None => (Rejected DecryptionError, advance w)
        | Some decryptedData =>
            match JSON_parse decryptedData with
            | None => (Rejected SyntaxError, advance w)
            | Some v => (Resolved v, advance w)
            end
        end
    | _, _ => (Rejected (NotFound "Subject not found"), advance w)
    end.
Proof.
  intros Hok. unfold getSubjectData, bind.
  rewrite (statement_accepted _ _ Hok). unfold q_subject_data. simpl fst. simpl snd.
  rewrite join_rows_of_subject.
  assert (Ew : advance (with_store (store w) w) = advance w) by (destruct w; reflexivity).
  rewrite Ew.
  destruct (rows_of subjectId (store w)) as [|s rs]; simpl; auto.
  destruct (keys_of subjectId (store w)) as [|k ks]; simpl.
  - induction rs; simpl; auto.
  - destruct (decryptFromStorage (personal_data s) (key k)); auto.
    destruct (JSON_parse s0); auto.
Qed.

(** *** What a successful [initializeUser] has done *)

Lemma initializeUser_resolved (subjectId : SubjectId) (personalData : json)
  (w w1 : World) :
  initializeUser subjectId personalData w = (Resolved tt, w1) ->
  let t := tick w in
  let d := store w in
  match rows_of subjectId d, keys_of subjectId d with
  | [], _ =>
      let k := key_source (1 + t) in
      w1 = mkWorld
             (mkDB (subjects d ++ [created_subject subjectId personalData k (2 + t)])
                   (subject_keys d ++ [mkSubjectKey subjectId k])
                   (subject_processors d))
             (trace w ++ [Begin; KeyGenerated k; Commit]) (5 + t)
  | _ :: _, kr :: _ =>
      w1 = mkWorld
             (mkDB (rewritten subjectId personalData (key kr) (2 + t) (subjects d))
                   (subject_keys d)
                   (subject_processors d))
             (trace w ++ [Begin; Commit]) (4 + t)
  | _ :: _, [] =>
      let k := key_source (2 + t) in
      w1 = mkWorld
             (mkDB (rewritten subjectId personalData k (4 + t) (subjects d))
                   (subject_keys d ++ [mkSubjectKey subjectId k])
                   (subject_processors d))
             (trace w ++ [Begin; KeyGenerated k; Commit]) (6 + t)
  end.
Proof.
  unfold initializeUser, transaction, _initializeUserInTransaction, bind, statement.
  unfold rows_of, keys_of. simpl.
  destruct (store_ok (tick w)); simpl; [|discriminate].
  destruct (filter (fun s => String.eqb (id s) subjectId) (subjects (store w)))
    as [|s0 rs]; simpl.
  - unfold _createNewSubject, _saveSubjectEncryptionKey, bind, statement,
      generateClientKey. simpl.
    destruct (store_ok (S (S (tick w)))); simpl; [|discriminate].
    destruct (store_ok (S (S (S (tick w))))); simpl; [|discriminate].
    destruct (store_ok (S (S (S (S (tick w)))))); simpl; [|discriminate].
    intros E. injection E as <-. unfold advance, emit, with_store; simpl.
    repeat rewrite <- app_assoc. reflexivity.
  - unfold _updateExistingSubject, _saveSubjectEncryptionKey, bind, statement,
      generateClientKey, ret. simpl.
    destruct (store_ok (S (tick w))); simpl; [|discriminate].
    destruct (filter (fun k => String.eqb (key_subject_id k) subjectId)
                     (subject_keys (store w))) as [|kr ks]; simpl.
    + destruct (store_ok (S (S (S (tick w))))); simpl; [|discriminate].
      destruct (store_ok (S (S (S (S (tick w)))))); simpl; [|discriminate].
      destruct (store_ok (S (S (S (S (S (tick w))))))); simpl; [|discriminate].
      intros E. injection E as <-. unfold advance, emit, with_store; simpl.
      repeat rewrite <- app_assoc. reflexivity.
    + destruct (store_ok (S (S (tick w)))); simpl; [|discriminate].
      destruct (store_ok (S (S (S (tick w))))); simpl; [|discriminate].
      intros E. injection E as <-. unfold advance, emit, with_store; simpl.
      repeat rewrite <- app_assoc. reflexivity.
Qed.

(** With a store that accepts everything, [initializeUser] resolves. *)
Lemma initializeUser_resolves (subjectId : SubjectId) (personalData : json) (w : World) :
  (forall n, store_ok n = true) ->
  exists w1, initializeUser subjectId personalData w = (Resolved tt, w1).
Proof.
  intros Hok.
  unfold initializeUser, transaction, _initializeUserInTransaction, bind, statement.
  simpl. rewrite Hok. simpl.
  destruct (filter (fun s => String.eqb (id s) subjectId) (subjects (store w)))
    as [|s0 rs]; simpl.
  - unfold _createNewSubject, _saveSubjectEncryptionKey, bind, statement,
      generateClientKey. simpl. repeat (rewrite Hok; simpl). eauto.
  - unfold _updateExistingSubject, _saveSubjectEncryptionKey, bind, statement,
      generateClientKey, ret. simpl. rewrite Hok. simpl.
    destruct (filter (fun k => String.eqb (key_subject_id k) subjectId)
                     (subject_keys (store w))) as [|kr ks]; simpl;
      repeat (rewrite Hok; simpl); eauto.
Qed.

Lemma rows_of_rewritten (subjectId : SubjectId) (personalData : json) (k : Key)
  (now : Timestamp) (l : list subject_row) :
  filter (fun s => String.eqb (id s) subjectId) (rewritten subjectId personalData k now l)
  = map (set_personal_data (encryptForStorage (JSON_stringify personalData) k) now)
        (filter (fun s => String.eqb (id s) subjectId) l).
Proof.
  unfold rewritten. induction l as [|s l IH]; simpl; auto.
  destruct (String.eqb (id s) subjectId) eqn:Es; simpl; rewrite Es, IH; reflexivity.
Qed.

Lemma consent_of_rewritten (subjectId : SubjectId) (personalData : json) (k : Key)
  (now : Timestamp) (l : list subject_row) :
  map consent_of (rewritten subjectId personalData k now l) = map consent_of l.
Proof.
  unfold rewritten. induction l as [|s l IH]; simpl; auto.
  rewrite IH. destruct (String.eqb (id s) subjectId); reflexivity.
Qed.

Lemma keys_of_inserted (subjectId : SubjectId) (k : Key) (d : DB)
  (l : list subject_row) (ps : list subject_processor_row) :
  keys_of subjectId (mkDB l (subject_keys d ++ [mkSubjectKey subjectId k]) ps)
  = keys_of subjectId d ++ [mkSubjectKey subjectId k].
Proof.
  unfold keys_of; simpl. rewrite filter_app. simpl.
  now rewrite String.eqb_refl.
Qed.

(** C3, as amended.  When the subject has no row and no key row, and
    the cipher opens under a key what it sealed under it,
    [initializeUser] followed by [getSubjectData] gives what
    [JSON.parse] reads from the text [JSON.stringify] wrote for the
    payload: the read after a resolved [initializeUser] settles so once
    the store has answered it, it resolves to the payload itself
    exactly when [JSON.parse] reads the payload back, and with a store
    that accepts everything both calls go through. *)
Theorem getSubjectData_after_initializeUser
  (subjectId : SubjectId) (personalData : json) (w : World) :
  rows_of subjectId (store w) = [] ->
  keys_of subjectId (store w) = [] ->
  (forall k, decryptFromStorage
               (Some (encryptForStorage (JSON_stringify personalData) k)) k
             = Some (JSON_stringify personalData)) ->
  (forall w1,
     initializeUser subjectId personalData w = (Resolved tt, w1) ->
     store_ok (tick w1) = true ->
     getSubjectData subjectId w1 = (read_back personalData, advance w1)
     /\ (getSubjectData subjectId w1 = (Resolved personalData, advance w1)
         <-> JSON_parse (JSON_stringify personalData) = Some personalData))
  /\ ((forall n, store_ok n = true) ->
      exists w1,
        initializeUser subjectId personalData w = (Resolved tt, w1)
        /\ getSubjectData subjectId w1 = (read_back personalData, advance w1)).
Proof.
  intros Hrows Hkeys Hcipher.
  assert (Hread : forall w1,
             initializeUser subjectId personalData w = (Resolved tt, w1) ->
             store_ok (tick w1) = true ->
             getSubjectData subjectId w1 = (read_back personalData, advance w1)).
  { intros w1 Hinit Hok.
    apply initializeUser_resolved in Hinit. cbv zeta in Hinit.
    rewrite Hrows in Hinit.
    rewrite (getSubjectData_reads _ _ Hok). subst w1. cbn [store].
    rewrite keys_of_inserted, Hkeys.
    unfold rows_of in *. cbn [subjects]. rewrite filter_app, Hrows. simpl.
    rewrite String.eqb_refl. simpl.
    rewrite Hcipher. unfold read_back.
    destruct (JSON_parse (JSON_stringify personalData)); reflexivity. }
  split.
  - intros w1 Hinit Hok. split; [now apply Hread|].
    rewrite (Hread w1 Hinit Hok). unfold read_back.
    destruct (JSON_parse (JSON_stringify personalData)) as [v|]; split; intros E;
      try discriminate; congruence.
  - intros Hok.
    destruct (initializeUser_resolves subjectId personalData w Hok) as (w1 & Hinit).
    exists w1. split; [exact Hinit|]. apply Hread; auto.
Qed.


(** *** Consent flags *)

Lemma rows_of_updated (subjectId : SubjectId) (f : subject_row -> subject_row)
  (l : list subject_row) :
  (forall s, id (f s) = id s) ->
  filter (fun s => String.eqb (id s) subjectId)
         (map (fun s => if String.eqb (id s) subjectId then f s else s) l)
  = map f (filter (fun s => String.eqb (id s) subjectId) l).
Proof.
  intros Hid. induction l as [|s l IH]; simpl; auto.
  destruct (String.eqb (id s) subjectId) eqn:Es; simpl.
  - rewrite Hid, Es, IH. reflexivity.
  - rewrite Es, IH. reflexivity.
Qed.

Lemma consent_of_updated (subjectId : SubjectId) (f : subject_row -> subject_row)
  (l : list subject_row) :
  (forall s, consent_of (f s) = consent_of s) ->
  map consent_of (map (fun s => if String.eqb (id s) subjectId then f s else s) l)
  = map consent_of l.
Proof.
  intros Hf. induction l as [|s l IH]; simpl; auto.
  rewrite IH. destruct (String.eqb (id s) subjectId); now rewrite ?Hf.
Qed.

Lemma same_world (w : World) : with_store (store w) w = w.
Proof. destruct w; reflexivity. Qed.

(** The update of [restrict] and [object], once the store accepted it. *)
Lemma update_where_id_run (subjectId : SubjectId) (f : subject_row -> subject_row)
  (w : World) :
  store_ok (tick w) = true ->
  (subjectUpdates <- statement (q_update_where_id subjectId f) ;;
   if Nat.eqb subjectUpdates 0 then throw (NotFound "Subject not found")
   else if Nat.ltb 1 subjectUpdates
        then throw (Forbidden "Duplicated subject in the database")
        else ret tt) w
  = let w' := advance (with_store (snd (q_update_where_id subjectId f (tick w) (store w))) w) in
    match length (rows_of subjectId (store w)) with
    | 0 => (Rejected (NotFound "Subject not found"), w')
    | 1 => (Resolved tt, w')
    | _ => (Rejected (Forbidden "Duplicated subject in the database"), w')
    end.
Proof.
  intros Hok. unfold bind. rewrite (statement_accepted _ _ Hok).
  unfold q_update_where_id, rows_of. simpl.
  destruct (length (filter (fun s => String.eqb (id s) subjectId) (subjects (store w))))
    as [|[|n]]; reflexivity.
Qed.

(** C9.  A successful [initializeUser] for a subject without a row adds
    one row to the table of subjects, with the three consent flags set;
    for a subject with a row it leaves the id and the flags of every row
    as they were.  No other method writes default flags: the erasure
    leaves the table of subjects as it is, [object] leaves the flags of
    every row as they are, and the getters and the listing leave the
    store as it is. *)
Theorem default_consent_only_at_creation
  (subjectId : SubjectId) (personalData : json) (w w1 : World) :
  initializeUser subjectId personalData w = (Resolved tt, w1) ->
  (rows_of subjectId (store w) = [] ->
     exists c t,
       subjects (store w1)
       = subjects (store w) ++ [mkSubject subjectId (Some c) true true true None t t])
  /\ (rows_of subjectId (store w) <> [] ->
      map consent_of (subjects (store w1)) = map consent_of (subjects (store w)))
  /\ (forall s r w',
        eraseDataAndRevokeConsent s w = (r, w') ->
        subjects (store w') = subjects (store w))
  /\ (forall s o r w',
        object s o w = (r, w') ->
        map consent_of (subjects (store w')) = map consent_of (subjects (store w)))
  /\ (forall s p page,
        store (snd (getSubjectData s w)) = store w
        /\ store (snd (getSubjectRestrictions s w)) = store w
        /\ store (snd (getSubjectObjection s w)) = store w
        /\ store (snd (listSubjects p page w)) = store w).
Proof.
  intros Hinit. apply initializeUser_resolved in Hinit. cbv zeta in Hinit.
  split; [|split; [|split; [|split]]].
  - intros Hrows. rewrite Hrows in Hinit. subst w1. simpl.
    unfold created_subject. eauto.
  - intros Hrows. destruct (rows_of subjectId (store w)) as [|s0 rs]; [now elim Hrows|].
    destruct (keys_of subjectId (store w)); subst w1; simpl;
      apply consent_of_rewritten.
  - intros s r w'. rewrite erase_run. cbv zeta.
    destruct (store_ok (tick w)); [destruct (store_ok (1 + tick w));
      [destruct (ledger_ok (2 + tick w)); [destruct (store_ok (3 + tick w))|]|]|];
      intros E; injection E as _ <-; reflexivity.
  - intros s o r w'. unfold object.
    destruct (store_ok (tick w)) eqn:Hok.
    + rewrite (update_where_id_run _ _ _ Hok). cbv zeta.
      assert (Hc : map consent_of
                     (subjects (store (advance (with_store
                        (snd (q_update_where_id s (set_objection o) (tick w) (store w))) w))))
                   = map consent_of (subjects (store w))).
      { simpl. apply consent_of_updated. reflexivity. }
      destruct (length (rows_of s (store w))) as [|[|n]];
        intros E; injection E as _ <-; exact Hc.
    + unfold bind. rewrite (statement_rejected _ _ Hok).
      intros E; injection E as _ <-; reflexivity.
  - intros s p page. repeat split.
    + unfold getSubjectData, bind, statement, throw, ret, q_subject_data.
      destruct (store_ok (tick w)); [|reflexivity].
      destruct (first_row _) as [[c k]|]; [|reflexivity].
      cbn [fst snd]. destruct (decryptFromStorage c k); [|reflexivity].
      destruct (JSON_parse s0); reflexivity.
    + unfold getSubjectRestrictions, bind, statement, throw, ret, q_restrictions.
      destruct (store_ok (tick w)); [|reflexivity].
      destruct (first_row _); reflexivity.
    + unfold getSubjectObjection, bind, statement, throw, ret, q_objection.
      destruct (store_ok (tick w)); [|reflexivity].
      destruct (first_row _); reflexivity.
    + unfold listSubjects, bind, statement, throw, ret, q_count_listed, q_page_listed.
      destruct (store_ok (tick w)); [|reflexivity].
      destruct (Z.gtb _ _); [reflexivity|].
      destruct (Z.ltb _ _); [reflexivity|].
      destruct (store_ok _); reflexivity.
Qed.

(** *** Getters *)

Lemma getSubjectRestrictions_reads (subjectId : SubjectId) (w : World) :
  store_ok (tick w) = true ->
  getSubjectRestrictions subjectId w =
    match rows_of subjectId (store w) with
    | [] => (Rejected (NotFound "Subject not found"), advance w)
    | s :: _ =>
        (Resolved (mkRestrictions (direct_marketing s) (email_communication s) (research s)),
         advance w)
    end.
Proof.
  intros Hok. unfold getSubjectRestrictions, bind.
  rewrite (statement_accepted _ _ Hok). unfold q_restrictions. cbn [fst snd].
  rewrite same_world. fold (rows_of subjectId (store w)).
  destruct (rows_of subjectId (store w)); reflexivity.
Qed.

Lemma getSubjectObjection_reads (subjectId : SubjectId) (w : World) :
  store_ok (tick w) = true ->
  getSubjectObjection subjectId w =
    match rows_of subjectId (store w) with
    | [] => (Rejected (NotFound "Subject not found"), advance w)
    | s :: _ => (Resolved (objection s), advance w)
    end.
Proof.
  intros Hok. unfold getSubjectObjection, bind.
  rewrite (statement_accepted _ _ Hok). unfold q_objection. cbn [fst snd].
  rewrite same_world. fold (rows_of subjectId (store w)).
  destruct (rows_of subjectId (store w)); reflexivity.
Qed.

(** C7.  For a subject id without a row in the table of subjects, the
    three getters are rejected with [NotFound] once the store has
    answered their query. *)
Theorem getters_not_found (subjectId : SubjectId) (w : World) :
  rows_of subjectId (store w) = [] ->
  store_ok (tick w) = true ->
  getSubjectData subjectId w = (Rejected (NotFound "Subject not found"), advance w)
  /\ getSubjectRestrictions subjectId w
     = (Rejected (NotFound "Subject not found"), advance w)
  /\ getSubjectObjection subjectId w
     = (Rejected (NotFound "Subject not found"), advance w).
Proof.
  intros Hrows Hok. split; [|split].
  - rewrite (getSubjectData_reads _ _ Hok), Hrows. reflexivity.
  - rewrite (getSubjectRestrictions_reads _ _ Hok), Hrows. reflexivity.
  - rewrite (getSubjectObjection_reads _ _ Hok), Hrows. reflexivity.
Qed.

(** C8.  Once the store has run their update, [restrict] and [object]
    are rejected with [NotFound] when it matched no row and with
    [Forbidden] when it matched more than one, and they resolve when it
    matched exactly one; after a resolved call the getter of the same
    subject gives back the values that were written. *)
Theorem restrict_and_object_outcomes
  (subjectId : SubjectId) (directMarketing emailCommunication research_ : bool)
  (objection_ : option bool) (w : World) :
  store_ok (tick w) = true ->
  let n := length (rows_of subjectId (store w)) in
  (n = 0 ->
     (exists w', restrict subjectId directMarketing emailCommunication research_ w
                 = (Rejected (NotFound "Subject not found"), w'))
     /\ (exists w', object subjectId objection_ w
                    = (Rejected (NotFound "Subject not found"), w')))
  /\ (1 < n ->
      (exists w', restrict subjectId directMarketing emailCommunication research_ w
                  = (Rejected (Forbidden "Duplicated subject in the database"), w'))
      /\ (exists w', object subjectId objection_ w
                     = (Rejected (Forbidden "Duplicated subject in the database"), w')))
  /\ (n = 1 ->
      (exists w', restrict subjectId directMarketing emailCommunication research_ w
                  = (Resolved tt, w'))
      /\ (exists w', object subjectId objection_ w = (Resolved tt, w')))
  /\ (forall w',
        restrict subjectId directMarketing emailCommunication research_ w
        = (Resolved tt, w') ->
        store_ok (tick w') = true ->
        getSubjectRestrictions subjectId w'
        = (Resolved (mkRestrictions directMarketing emailCommunication research_),
           advance w'))
  /\ (forall w',
        object subjectId objection_ w = (Resolved tt, w') ->
        store_ok (tick w') = true ->
        getSubjectObjection subjectId w' = (Resolved objection_, advance w')).
Proof.
  intros Hok n. subst n. unfold restrict, object.
  rewrite !(update_where_id_run _ _ _ Hok). cbv zeta.
  split; [|split; [|split; [|split]]].
  - intros ->. eauto.
  - intros Hn. destruct (length (rows_of subjectId (store w))) as [|[|n]]; try lia. eauto.
  - intros ->. eauto.
  - intros w' E Hok'. rewrite (getSubjectRestrictions_reads _ _ Hok').
    destruct (rows_of subjectId (store w)) as [|s [|s' rs]] eqn:Er; try discriminate.
    injection E as <-. unfold rows_of, q_update_where_id in *. cbn [store snd subjects advance with_store].
    rewrite rows_of_updated by reflexivity. rewrite Er. reflexivity.
  - intros w' E Hok'. rewrite (getSubjectObjection_reads _ _ Hok').
    destruct (rows_of subjectId (store w)) as [|s [|s' rs]] eqn:Er; try discriminate.
    injection E as <-. unfold rows_of, q_update_where_id in *. cbn [store snd subjects advance with_store].
    rewrite rows_of_updated by reflexivity. rewrite Er. reflexivity.
Qed.

(** *** Listing *)

(** [Math_ceil_div a b] is the least integer not below [a / b]. *)
Lemma Math_ceil_div_spec (a b : Z) :
  (0 < b)%Z ->
  (b * (Math_ceil_div a b - 1) < a <= b * Math_ceil_div a b)%Z.
Proof.
  intros Hb. unfold Math_ceil_div.
  pose proof (Z.div_mod (- a) b) as Hdm.
  pose proof (Z.mod_pos_bound (- a) b Hb) as Hm.
  lia.
Qed.

Lemma page_total_spec (n : nat) :
  let t := page_total (Z.of_nat n) in
  (1 <= t)%Z
  /\ (Z.of_nat n <= 10 * t)%Z
  /\ ((10 * (t - 1) < Z.of_nat n)%Z \/ (n = 0 /\ t = 1%Z)).
Proof.
  cbv zeta. unfold page_total, PAGE_SIZE.
  pose proof (@Math_ceil_div_spec (Z.of_nat n) 10 eq_refl) as H.
  destruct (Z.eqb_spec (Math_ceil_div (Z.of_nat n) 10) 0) as [E | E]; lia.
Qed.


(** C10.  Without a page, [listSubjects] does what it does for page 1,
    and the listing it resolves to is on page 1. *)
Theorem listSubjects_default_page (processorId : ProcessorId) (w : World) :
  listSubjects processorId None w = listSubjects processorId (Some 1%Z) w
  /\ (forall l w',
        listSubjects processorId None w = (Resolved l, w') ->
        current (paging l) = 1%Z).
Proof.
  split; [reflexivity|].
  intros l w'. unfold listSubjects, bind, statement, throw, ret.
  destruct (store_ok (tick w)); [|discriminate].
  destruct (q_count_listed _ _ _) as [c d].
  destruct (Z.gtb _ _); [discriminate|].
  destruct (Z.ltb _ _); [discriminate|].
  destruct (store_ok _); [|discriminate].
  destruct (q_page_listed _ _ _ _).
  intros E. injection E as <- _. reflexivity.
Qed.

(** *** The discipline of the table of keys is kept by every method *)

Lemma rows_of_nil_iff (subjectId : SubjectId) (d : DB) :
  rows_of subjectId d = [] <-> ~ In subjectId (map id (subjects d)).
Proof.
  unfold rows_of. induction (subjects d) as [|s l IH]; simpl.
  - tauto.
  - destruct (String.eqb_spec (id s) subjectId) as [E | E].
    + split; [discriminate|]. intros H. elim H. now left.
    + rewrite IH. tauto.
Qed.

Lemma ids_of_updated (subjectId : SubjectId) (f : subject_row -> subject_row)
  (l : list subject_row) :
  (forall s, id (f s) = id s) ->
  map id (map (fun s => if String.eqb (id s) subjectId then f s else s) l) = map id l.
Proof.
  intros Hid. induction l as [|s l IH]; simpl; auto.
  rewrite IH. destruct (String.eqb (id s) subjectId); now rewrite ?Hid.
Qed.

Lemma key_discipline_same_ids (d d' : DB) :
  map id (subjects d') = map id (subjects d) ->
  subject_keys d' = subject_keys d ->
  key_discipline d -> key_discipline d'.
Proof.
  intros Hids Hkeys Hd s. destruct (Hd s) as (Hone & Horphan).
  unfold keys_of in *. rewrite Hkeys. split; [exact Hone|].
  intros Hrows. apply Horphan. apply rows_of_nil_iff. rewrite <- Hids.
  now apply rows_of_nil_iff.
Qed.

Lemma key_discipline_inserted (d d' : DB) (subjectId : SubjectId) (k : Key) :
  keys_of subjectId d = [] ->
  In subjectId (map id (subjects d')) ->
  (forall s, In s (map id (subjects d)) -> In s (map id (subjects d'))) ->
  subject_keys d' = subject_keys d ++ [mkSubjectKey subjectId k] ->
  key_discipline d -> key_discipline d'.
Proof.
  intros Hnone Hin Hsub Hkeys Hd s. destruct (Hd s) as (Hone & Horphan).
  unfold keys_of in *. rewrite Hkeys, filter_app. simpl.
  destruct (String.eqb_spec subjectId s) as [E | E].
  - subst s. rewrite Hnone. split; [simpl; lia|].
    intros Hrows. apply rows_of_nil_iff in Hrows. contradiction.
  - rewrite app_nil_r. split; [exact Hone|].
    intros Hrows. apply Horphan. apply rows_of_nil_iff. intros Hs.
    apply rows_of_nil_iff in Hrows. auto.
Qed.

Lemma transaction_rejected_keeps_store {A : Type} (handler : M A) (w w' : World)
  (e : Error) :
  transaction handler w = (Rejected e, w') -> store w' = store w.
Proof.
  unfold transaction. destruct (handler (emit Begin w)) as [[a | e'] w1].
  - destruct (store_ok (tick w1)); [discriminate|].
    intros E. injection E as _ <-. reflexivity.
  - intros E. injection E as _ <-. reflexivity.
Qed.

Lemma initializeUser_keeps_key_discipline
  (subjectId : SubjectId) (personalData : json) (w w' : World) (r : Outcome unit) :
  initializeUser subjectId personalData w = (r, w') ->
  key_discipline (store w) -> key_discipline (store w').
Proof.
  intros Hrun Hd. destruct r as [[] | e].
  - apply initializeUser_resolved in Hrun. cbv zeta in Hrun.
    destruct (Hd subjectId) as (Hone & Horphan).
    destruct (rows_of subjectId (store w)) as [|s0 rs] eqn:Er.
    + subst w'.
      apply (@key_discipline_inserted (store w) _ subjectId (key_source (1 + tick w)));
        auto; cbn [store subjects subject_keys]; try reflexivity.
      * rewrite map_app, in_app_iff. right. now left.
      * intros s Hs. rewrite map_app, in_app_iff. now left.
    + assert (Hin : In subjectId (map id (subjects (store w)))).
      { destruct (in_dec string_dec subjectId (map id (subjects (store w)))) as [H | H];
          auto.
        apply rows_of_nil_iff in H. congruence. }
      destruct (keys_of subjectId (store w)) as [|kr ks] eqn:Ek; subst w'.
      * apply (@key_discipline_inserted (store w) _ subjectId (key_source (2 + tick w)));
          auto; cbn [store subjects subject_keys]; try reflexivity;
          unfold rewritten; rewrite ids_of_updated by reflexivity; auto.
      * apply (@key_discipline_same_ids (store w)); auto.
        cbn [store subjects]. unfold rewritten. now rewrite ids_of_updated.
  - apply transaction_rejected_keeps_store in Hrun. now rewrite Hrun.
Qed.

Lemma erase_keeps_key_discipline (subjectId : SubjectId) (w w' : World)
  (r : Outcome unit) :
  eraseDataAndRevokeConsent subjectId w = (r, w') ->
  key_discipline (store w) -> key_discipline (store w').
Proof.
  intros Hrun Hd. destruct r as [[] | e].
  - rewrite erase_run in Hrun. cbv zeta in Hrun.
    destruct (store_ok (tick w)); [destruct (store_ok (1 + tick w));
      [destruct (ledger_ok (2 + tick w)); [destruct (store_ok (3 + tick w))|]|]|];
      try discriminate.
    injection Hrun as <-. cbn [store]. intros s. destruct (Hd s) as (Hone & Horphan).
    assert (Hsub : forall k, In k (keys_of s (erased subjectId (store w))) ->
                             In k (keys_of s (store w))).
    { intros k Hk. unfold keys_of, erased in *. cbn [subject_keys] in Hk.
      apply filter_In in Hk as (Hk & Es). apply filter_In in Hk as (Hk & _).
      apply filter_In. auto. }
    assert (Hlen : length (keys_of s (erased subjectId (store w)))
                   <= length (keys_of s (store w))).
    { unfold keys_of, erased. cbn [subject_keys].
      induction (subject_keys (store w)) as [|k ks IH]; simpl; auto.
      destruct (String.eqb (key_subject_id k) subjectId); simpl;
        destruct (String.eqb (key_subject_id k) s); simpl; lia. }
    split; [lia|]. intros Hrows.
    assert (Hk : keys_of s (store w) = []) by (apply Horphan; exact Hrows).
    destruct (keys_of s (erased subjectId (store w))) as [|k ks] eqn:Ek; auto.
    specialize (Hsub k (or_introl eq_refl)). rewrite Hk in Hsub. inversion Hsub.
  - apply transaction_rejected_keeps_store in Hrun. now rewrite Hrun.
Qed.

Lemma restrict_keeps_key_discipline
  (subjectId : SubjectId) (dm ec rs : bool) (w w' : World) (r : Outcome unit) :
  restrict subjectId dm ec rs w = (r, w') ->
  key_discipline (store w) -> key_discipline (store w').
Proof.
  unfold restrict. destruct (store_ok (tick w)) eqn:Hok.
  - rewrite (update_where_id_run _ _ _ Hok). cbv zeta.
    intros Hrun. apply key_discipline_same_ids.
    + destruct (length (rows_of subjectId (store w))) as [|[|n]];
        injection Hrun as _ <-; cbn [store advance with_store q_update_where_id snd subjects];
        now apply ids_of_updated.
    + destruct (length (rows_of subjectId (store w))) as [|[|n]];
        injection Hrun as _ <-; reflexivity.
  - unfold bind. rewrite (statement_rejected _ _ Hok).
    intros E. injection E as _ <-. auto.
Qed.

Lemma object_keeps_key_discipline
  (subjectId : SubjectId) (o : option bool) (w w' : World) (r : Outcome unit) :
  object subjectId o w = (r, w') ->
  key_discipline (store w) -> key_discipline (store w').
Proof.
  unfold object. destruct (store_ok (tick w)) eqn:Hok.
  - rewrite (update_where_id_run _ _ _ Hok). cbv zeta.
    intros Hrun. apply key_discipline_same_ids.
    + destruct (length (rows_of subjectId (store w))) as [|[|n]];
        injection Hrun as _ <-; cbn [store advance with_store q_update_where_id snd subjects];
        now apply ids_of_updated.
    + destruct (length (rows_of subjectId (store w))) as [|[|n]];
        injection Hrun as _ <-; reflexivity.
  - unfold bind. rewrite (statement_rejected _ _ Hok).
    intros E. injection E as _ <-. auto.
Qed.

End Properties.

(** ** The runs the statements above are instantiated on *)

Module Runs.
Import Reference.

Lemma unseal_seal (k : Key) (plaintext : string) :
  unseal k (seal plaintext k) = Some plaintext.
Proof.
  unfold seal. induction k as [|a k IH]; simpl; auto.
  now rewrite Ascii.eqb_refl.
Qed.


(** C1 fails as it is stated: in the successful run the ledger is called
    before the commit, and a run whose commit is rejected has called the
    ledger once all the same. *)
Lemma erase_notifies_before_commit :
  (exists w',
     @eraseDataAndRevokeConsent calm "s1" world1 = (Resolved tt, w')
     /\ ~ notified_only_after_commit (events_of_run world1 w'))
  /\ (exists w',
       @eraseDataAndRevokeConsent (store_down_at 3) "s1" world1
       = (Rejected StoreError, w')
       /\ store w' = store world1
       /\ ledger_calls (events_of_run world1 w') = ["s1"]).
Proof.
  split.
  - eexists. split; [vm_compute; reflexivity|].
    intros H.
    specialize (H [Begin; Info erasure_message] "s1" [Commit] eq_refl).
    simpl in H. destruct H as [H | [H | H]]; try discriminate. exact H.
  - eexists. split; [vm_compute; reflexivity|]. split; reflexivity.
Qed.

Lemma erase_notifies_inside_transaction_witness :
  @eraseDataAndRevokeConsent calm "s1" world1 = (Resolved tt, world1_erased)
  /\ ledger_calls (events_of_run world1 world1_erased) = ["s1"].
Proof.
  split; [reflexivity|].
  apply (@erase_notifies_inside_transaction calm "s1" world1 _ (Resolved tt));
    reflexivity.
Defined.

(** C2 fails as it is stated: with the ledger down the erasure is
    rejected, and the key row and the association rows are still there. *)
Lemma erase_fails_with_the_ledger :
  exists w',
    @eraseDataAndRevokeConsent ledger_down "s1" world1 = (Rejected LedgerError, w')
    /\ keys_of "s1" (store w') = [mkSubjectKey "s1" "k1"]
    /\ processors_of "s1" (store w')
       = [mkSubjectProcessor "s1" 7; mkSubjectProcessor "s1" 8].
Proof. eexists. split; [vm_compute; reflexivity|]. split; reflexivity. Qed.

Lemma erase_rejected_when_ledger_fails_witness :
  (@store_ok ledger_down (tick world1) = true
   /\ @store_ok ledger_down (1 + tick world1) = true
   /\ @ledger_ok ledger_down (2 + tick world1) = false)
  /\ exists w',
      @eraseDataAndRevokeConsent ledger_down "s1" world1 = (Rejected LedgerError, w')
      /\ store w' = store world1
      /\ events_of_run world1 w'
         = [Begin; Info erasure_message; LedgerCall "s1"; Rollback].
Proof.
  split; [repeat split; reflexivity|].
  apply (@erase_rejected_when_ledger_fails ledger_down "s1" world1); reflexivity.
Defined.

Lemma erase_shreds_key_and_keeps_subject_witness :
  @eraseDataAndRevokeConsent calm "s1" world1 = (Resolved tt, world1_erased)
  /\ (keys_of "s1" (store world1_erased) = []
      /\ processors_of "s1" (store world1_erased) = []
      /\ subjects (store world1_erased) = subjects (store world1)
      /\ (@store_ok calm (tick world1_erased) = true ->
          @getSubjectData calm sealing compact_json "s1" world1_erased
          = (Rejected (NotFound "Subject not found"), advance world1_erased))).
Proof.
  split; [reflexivity|].
  apply (@erase_shreds_key_and_keeps_subject calm sealing compact_json "s1" world1).
  reflexivity.
Defined.

(** C3 fails as it is stated: the payload [unscored] holds [NaN], and
    what [getSubjectData] gives after [initializeUser] holds [null] in
    its place. *)
Lemma getSubjectData_gives_null_for_NaN :
  rows_of "s1" (store world0) = []
  /\ keys_of "s1" (store world0) = []
  /\ @initializeUser calm sealing compact_json "s1" unscored world0
     = (Resolved tt, world0_unscored)
  /\ @getSubjectData calm sealing compact_json "s1" world0_unscored
     = (Resolved unscored_read_back, advance world0_unscored)
  /\ unscored_read_back <> unscored.
Proof. repeat split; try reflexivity. discriminate. Qed.

Lemma getSubjectData_after_initializeUser_witness :
  (rows_of "s1" (store world0) = []
   /\ keys_of "s1" (store world0) = []
   /\ (forall k, @decryptFromStorage sealing
                   (Some (@encryptForStorage sealing (stringify alice) k)) k
                 = Some (stringify alice)))
  /\ @initializeUser calm sealing compact_json "s1" alice world0
     = (Resolved tt, world0_alice)
  /\ @getSubjectData calm sealing compact_json "s1" world0_alice
     = (Resolved alice, advance world0_alice).
Proof.
  split.
  - repeat split; try reflexivity. intros k. apply unseal_seal.
  - split; [reflexivity|].
    apply (@getSubjectData_after_initializeUser calm sealing compact_json
             "s1" alice world0); try reflexivity.
    intros k. apply unseal_seal.
Defined.




Lemma getters_not_found_witness :
  (rows_of "s1" (store world0) = [] /\ @store_ok calm (tick world0) = true)
  /\ (@getSubjectData calm sealing compact_json "s1" world0
      = (Rejected (NotFound "Subject not found"), advance world0)
      /\ @getSubjectRestrictions calm "s1" world0
         = (Rejected (NotFound "Subject not found"), advance world0)
      /\ @getSubjectObjection calm "s1" world0
         = (Rejected (NotFound "Subject not found"), advance world0)).
Proof.
  split; [split; reflexivity|].
  apply (@getters_not_found calm sealing compact_json "s1" world0); reflexivity.
Defined.

Lemma restrict_and_object_outcomes_witness :
  @store_ok calm (tick world0_alice) = true
  /\ (forall w',
        @restrict calm "s1" false true false world0_alice = (Resolved tt, w') ->
        @store_ok calm (tick w') = true ->
        @getSubjectRestrictions calm "s1" w'
        = (Resolved (mkRestrictions false true false), advance w'))
  /\ (exists w',
        @object calm "dup" (Some true) (mkWorld db_dup [] 0)
        = (Rejected (Forbidden "Duplicated subject in the database"), w')).
Proof.
  split; [reflexivity|]. split.
  - pose proof (@restrict_and_object_outcomes calm "s1" false true false (Some true)
                  world0_alice eq_refl) as H.
    cbv zeta in H. apply H.
  - pose proof (@restrict_and_object_outcomes calm "dup" false true false (Some true)
                  (mkWorld db_dup [] 0) eq_refl) as H.
    cbv zeta in H. apply H. simpl. lia.
Defined.

Lemma default_consent_only_at_creation_witness :
  @initializeUser calm sealing compact_json "s1" alice world0
  = (Resolved tt, world0_alice)
  /\ exists c t,
      subjects (store world0_alice)
      = subjects (store world0) ++ [mkSubject "s1" (Some c) true true true None t t].
Proof.
  split; [reflexivity|].
  apply (@default_consent_only_at_creation calm sealing compact_json
           "s1" alice world0 world0_alice); reflexivity.
Defined.

(** The scenario of the specification: subject ["s1"] is initialized
    with [alice], its three flags are set; after
    [restrict("s1", false, true, false)] the getter answers
    false, true, false. *)
Example alice_scenario :
  map consent_of (subjects (store world0_alice)) = [("s1", (true, true, true))]
  /\ exists w2 w3,
      @restrict calm "s1" false true false world0_alice = (Resolved tt, w2)
      /\ @getSubjectRestrictions calm "s1" w2
         = (Resolved (mkRestrictions false true false), w3).
Proof. split; [reflexivity|]. eexists _, _. split; vm_compute; reflexivity. Qed.

End Runs.

(** * Further properties of the service *)

Section Vault.

Context {env : Environment} {enc : Encryption} {js : Json}.

(** *** What each method leaves of the store *)

Lemma filter_map_same_id (x : SubjectId) (g : subject_row -> subject_row)
  (l : list subject_row) :
  (forall s, id (g s) = id s) ->
  filter (fun s => String.eqb (id s) x) (map g l)
  = map g (filter (fun s => String.eqb (id s) x) l).
Proof.
  intros Hid. induction l as [|s l IH]; simpl; auto.
  rewrite Hid. destruct (String.eqb (id s) x); simpl; now rewrite IH.
Qed.

Lemma keys_of_erased (x subjectId : SubjectId) (d : DB) :
  keys_of x (erased subjectId d)
  = if String.eqb x subjectId then [] else keys_of x d.
Proof.
  unfold keys_of, erased. cbn [subject_keys].
  destruct (String.eqb_spec x subjectId) as [E | E].
  - subst x. apply (filter_negb_none (fun k => String.eqb (key_subject_id k) subjectId)).
  - induction (subject_keys d) as [|k ks IH]; simpl; auto.
    destruct (String.eqb_spec (key_subject_id k) subjectId) as [Ek | Ek]; simpl.
    + rewrite IH. destruct (String.eqb_spec (key_subject_id k) x); congruence.
    + now rewrite IH.
Qed.

Lemma processors_of_erased (x subjectId : SubjectId) (d : DB) :
  processors_of x (erased subjectId d)
  = if String.eqb x subjectId then [] else processors_of x d.
Proof.
  unfold processors_of, erased. cbn [subject_processors].
  destruct (String.eqb_spec x subjectId) as [E | E].
  - subst x. apply (filter_negb_none (fun p => String.eqb (sp_subject_id p) subjectId)).
  - induction (subject_processors d) as [|k ks IH]; simpl; auto.
    destruct (String.eqb_spec (sp_subject_id k) subjectId) as [Ek | Ek]; simpl.
    + rewrite IH. destruct (String.eqb_spec (sp_subject_id k) x); congruence.
    + now rewrite IH.
Qed.

Lemma erase_resolved (subjectId : SubjectId) (w w' : World) :
  eraseDataAndRevokeConsent subjectId w = (Resolved tt, w') ->
  w' = mkWorld (erased subjectId (store w))
               (trace w ++ [Begin; Info erasure_message; LedgerCall subjectId; Commit])
               (4 + tick w)
  /\ store_ok (tick w) = true /\ store_ok (1 + tick w) = true
  /\ ledger_ok (2 + tick w) = true /\ store_ok (3 + tick w) = true.
Proof.
  rewrite erase_run. cbv zeta.
  destruct (store_ok (tick w)); [destruct (store_ok (1 + tick w));
    [destruct (ledger_ok (2 + tick w)); [destruct (store_ok (3 + tick w))|]|]|];
    intros E; try discriminate.
  injection E as <-. auto.
Qed.

Lemma erase_rejected_keeps_store (subjectId : SubjectId) (w w' : World) (e : Error) :
  eraseDataAndRevokeConsent subjectId w = (Rejected e, w') -> store w' = store w.
Proof. apply transaction_rejected_keeps_store. Qed.

(** The store after [restrict] or [object], whatever the outcome. *)
Lemma update_where_id_store (subjectId : SubjectId) (f : subject_row -> subject_row)
  (w w' : World) (r : Outcome unit) :
  (subjectUpdates <- statement (q_update_where_id subjectId f) ;;
   if Nat.eqb subjectUpdates 0 then throw (NotFound "Subject not found")
   else if Nat.ltb 1 subjectUpdates
        then throw (Forbidden "Duplicated subject in the database")
        else ret tt) w = (r, w') ->
  (store_ok (tick w) = false /\ store w' = store w)
  \/ (store_ok (tick w) = true
      /\ store w'
         = mkDB (map (fun s => if String.eqb (id s) subjectId then f s else s)
                     (subjects (store w)))
                (subject_keys (store w)) (subject_processors (store w))).
Proof.
  destruct (store_ok (tick w)) eqn:Hok.
  - rewrite (update_where_id_run _ _ _ Hok). cbv zeta. intros E. right. split; auto.
    destruct (length (rows_of subjectId (store w))) as [|[|n]];
      injection E as _ <-; reflexivity.
  - unfold bind. rewrite (statement_rejected _ _ Hok).
    intros E. injection E as _ <-. left. auto.
Qed.

Lemma getSubjectData_keeps_store (s : SubjectId) (w : World) :
  store (snd (getSubjectData s w)) = store w.
Proof.
  unfold getSubjectData, bind, statement, throw, ret, q_subject_data.
  destruct (store_ok (tick w)); [|reflexivity].
  destruct (first_row _) as [[c k]|]; [|reflexivity].
  cbn [fst snd]. destruct (decryptFromStorage c k) as [t|]; [|reflexivity].
  destruct (JSON_parse t); reflexivity.
Qed.

Lemma getSubjectRestrictions_keeps_store (s : SubjectId) (w : World) :
  store (snd (getSubjectRestrictions s w)) = store w.
Proof.
  unfold getSubjectRestrictions, bind, statement, throw, ret, q_restrictions.
  destruct (store_ok (tick w)); [|reflexivity].
  destruct (first_row _); reflexivity.
Qed.

Lemma getSubjectObjection_keeps_store (s : SubjectId) (w : World) :
  store (snd (getSubjectObjection s w)) = store w.
Proof.
  unfold getSubjectObjection, bind, statement, throw, ret, q_objection.
  destruct (store_ok (tick w)); [|reflexivity].
  destruct (first_row _); reflexivity.
Qed.

Lemma listSubjects_keeps_store (p : ProcessorId) (page : option Z) (w : World) :
  store (snd (listSubjects p page w)) = store w.
Proof.
  unfold listSubjects, bind, statement, throw, ret, q_count_listed, q_page_listed.
  destruct (store_ok (tick w)); [|reflexivity].
  destruct (Z.gtb _ _); [reflexivity|].
  destruct (Z.ltb _ _); [reflexivity|].
  destruct (store_ok _); reflexivity.
Qed.

(** *** The vault holds what its callers expect *)

Lemma In_rows_of (x : SubjectId) (d : DB) (s : subject_row) :
  In s (rows_of x d) -> id s = x.
Proof.
  unfold rows_of. intros H. apply filter_In in H as (_ & H).
  now apply String.eqb_eq.
Qed.

Lemma holds_same_keys_and_data (m : Expected) (d : DB) (g : subject_row -> subject_row) :
  (forall s, id (g s) = id s) ->
  (forall s, personal_data (g s) = personal_data s) ->
  holds m d ->
  holds m (mkDB (map g (subjects d)) (subject_keys d) (subject_processors d)).
Proof.
  intros Hid Hpd (Hnd & Hm). split.
  - cbn [subjects]. rewrite map_map.
    rewrite (map_ext (fun s => id (g s)) id Hid). exact Hnd.
  - intros x. specialize (Hm x). destruct (m x) as [p|]; [|exact Hm].
    destruct Hm as (Hp & s & k & Hr & Hk & Hdata). split; [exact Hp|].
    exists (g s), k. unfold rows_of, keys_of in *. cbn [subjects subject_keys].
    rewrite (filter_map_same_id x g _ Hid), Hr. simpl.
    rewrite Hpd. auto.
Qed.

Lemma holds_updated (m : Expected) (d : DB) (subjectId : SubjectId)
  (f : subject_row -> subject_row) :
  (forall s, id (f s) = id s) ->
  (forall s, personal_data (f s) = personal_data s) ->
  holds m d ->
  holds m (mkDB (map (fun s => if String.eqb (id s) subjectId then f s else s)
                     (subjects d))
                (subject_keys d) (subject_processors d)).
Proof.
  intros Hid Hpd. apply holds_same_keys_and_data.
  - intros s. destruct (String.eqb (id s) subjectId); auto.
  - intros s. destruct (String.eqb (id s) subjectId); auto.
Qed.

Lemma holds_erased (m : Expected) (d : DB) (subjectId : SubjectId) :
  holds m d ->
  holds (fun s' => if String.eqb s' subjectId then None else m s') (erased subjectId d).
Proof.
  intros (Hnd & Hm). split; [exact Hnd|].
  intros x. rewrite keys_of_erased.
  destruct (String.eqb x subjectId); [reflexivity|].
  specialize (Hm x). destruct (m x); auto.
Qed.

Lemma rows_of_single (x : SubjectId) (d : DB) (s : subject_row) (rs : list subject_row) :
  NoDup (map id (subjects d)) -> rows_of x d = s :: rs -> rs = [].
Proof.
  unfold rows_of. induction (subjects d) as [|a l IH]; simpl; [discriminate|].
  intros Hnd. inversion Hnd as [|? ? Hnotin Hnd']. subst.
  destruct (String.eqb_spec (id a) x) as [E | E]; [|now apply IH].
  intros H. injection H as _ Hrs. subst x.
  destruct rs as [|b rs]; auto. exfalso. apply Hnotin.
  assert (Hb : In b (filter (fun s0 => String.eqb (id s0) (id a)) l))
    by (rewrite Hrs; now left).
  apply filter_In in Hb as (Hb & Eb). apply String.eqb_eq in Eb.
  rewrite <- Eb. now apply in_map.
Qed.

Lemma keys_of_inserted_other (x subjectId : SubjectId) (k : Key) (d : DB)
  (l : list subject_row) (ps : list subject_processor_row) :
  x <> subjectId ->
  keys_of x (mkDB l (subject_keys d ++ [mkSubjectKey subjectId k]) ps) = keys_of x d.
Proof.
  intros Hx. unfold keys_of; simpl. rewrite filter_app. simpl.
  destruct (String.eqb_spec subjectId x); [congruence|]. apply app_nil_r.
Qed.

Lemma rewritten_rows (x subjectId : SubjectId) (p : json) (k : Key) (now : Timestamp)
  (l : list subject_row) :
  filter (fun s => String.eqb (id s) x) (rewritten subjectId p k now l)
  = if String.eqb x subjectId
    then map (set_personal_data (encryptForStorage (JSON_stringify p) k) now)
             (filter (fun s => String.eqb (id s) x) l)
    else filter (fun s => String.eqb (id s) x) l.
Proof.
  destruct (String.eqb_spec x subjectId) as [E | E].
  - subst x. apply rows_of_rewritten.
  - unfold rewritten. induction l as [|s l IH]; simpl; auto.
    destruct (String.eqb_spec (id s) subjectId) as [Es | Es]; simpl.
    + rewrite IH. destruct (String.eqb_spec (id s) x); congruence.
    + rewrite IH. reflexivity.
Qed.

Lemma holds_initialized (m : Expected) (subjectId : SubjectId) (p : json)
  (w w1 : World) :
  JSON_parse (JSON_stringify p) = Some p ->
  initializeUser subjectId p w = (Resolved tt, w1) ->
  holds m (store w) ->
  holds (fun s' => if String.eqb s' subjectId then Some p else m s') (store w1).
Proof.
  intros Hp Hinit (Hnd & Hm).
  apply initializeUser_resolved in Hinit. cbv zeta in Hinit.
  pose proof (Hm subjectId) as Hs.
  destruct (rows_of subjectId (store w)) as [|s0 rs] eqn:Er.
  - (* the subject is created *)
    assert (Hk0 : keys_of subjectId (store w) = []).
    { destruct (m subjectId); auto. destruct Hs as (_ & s & k & Hr & _). discriminate. }
    subst w1. cbn [store]. split.
    + cbn [subjects]. rewrite map_app. simpl.
      apply NoDup_app; [exact Hnd | repeat constructor; intros [] | ].
      intros x Hx [<- | []]. now apply (rows_of_nil_iff subjectId (store w)) in Er.
    + intros x. destruct (String.eqb_spec x subjectId) as [E | E].
      * subst x. split; [exact Hp|].
        eexists _, _. rewrite keys_of_inserted, Hk0.
        unfold rows_of in *. cbn [subjects]. rewrite filter_app, Er. simpl.
        rewrite String.eqb_refl. repeat split.
      * rewrite keys_of_inserted_other by exact E.
        unfold rows_of. cbn [subjects]. rewrite filter_app. simpl.
        destruct (String.eqb_spec subjectId x); [congruence|]. rewrite app_nil_r.
        exact (Hm x).
  - (* the subject is rewritten *)
    pose proof (rows_of_single _ _ Hnd Er) as ->.
    assert (Hids : forall k t,
               map id (rewritten subjectId p k t (subjects (store w)))
               = map id (subjects (store w))).
    { intros k t. unfold rewritten. now apply ids_of_updated. }
    destruct (keys_of subjectId (store w)) as [|kr ks] eqn:Ek; subst w1; cbn [store].
    + split; [cbn [subjects]; now rewrite Hids|].
      intros x. unfold rows_of. cbn [subjects]. rewrite rewritten_rows.
      destruct (String.eqb_spec x subjectId) as [E | E].
      * subst x. split; [exact Hp|]. eexists _, _.
        rewrite keys_of_inserted, Ek. unfold rows_of in Er. rewrite Er. simpl.
        repeat split.
      * rewrite keys_of_inserted_other by exact E. exact (Hm x).
    + split; [cbn [subjects]; now rewrite Hids|].
      intros x. unfold rows_of. cbn [subjects]. rewrite rewritten_rows.
      destruct (String.eqb_spec x subjectId) as [E | E].
      * subst x. split; [exact Hp|].
        destruct (m subjectId) as [p0|]; [|discriminate].
        destruct Hs as (_ & s & k & Hr & Hk & _). injection Hk as -> ->.
        eexists _, _. unfold keys_of in *. cbn [subject_keys]. rewrite Ek.
        unfold rows_of in Er. rewrite Er. simpl. repeat split.
      * exact (Hm x).
Qed.

(** Every call keeps the store in line with what its caller expects. *)
Lemma holds_performed (c : Call) (m : Expected) (w : World) :
  payload_round_trips c ->
  holds m (store w) ->
  holds (track c (fst (perform c w)) m) (store (snd (perform c w))).
Proof.
  intros Hc Hm. destruct c as [s | s p | pr page | s | s dm ec rs | s | s o | s];
    cbn [perform track fst snd].
  - rewrite getSubjectData_keeps_store. exact Hm.
  - destruct (initializeUser s p w) as [[[] | e] w1] eqn:Hrun; cbn [fst snd is_resolved].
    + exact (@holds_initialized m s p w w1 Hc Hrun Hm).
    + apply transaction_rejected_keeps_store in Hrun. now rewrite Hrun.
  - rewrite listSubjects_keeps_store. exact Hm.
  - destruct (eraseDataAndRevokeConsent s w) as [[[] | e] w1] eqn:Hrun;
      cbn [fst snd is_resolved].
    + apply erase_resolved in Hrun as (-> & _). cbn [store]. now apply holds_erased.
    + apply erase_rejected_keeps_store in Hrun. now rewrite Hrun.
  - destruct (restrict s dm ec rs w) as [r w1] eqn:Hrun. cbn [fst snd].
    assert (Hw1 : holds m (store w1)).
    { apply update_where_id_store in Hrun as [(_ & ->) | (_ & ->)]; auto.
      now apply holds_updated. }
    exact Hw1.
  - rewrite getSubjectRestrictions_keeps_store. exact Hm.
  - destruct (object s o w) as [r w1] eqn:Hrun. cbn [fst snd].
    assert (Hw1 : holds m (store w1)).
    { apply update_where_id_store in Hrun as [(_ & ->) | (_ & ->)]; auto.
      now apply holds_updated. }
    exact Hw1.
  - rewrite getSubjectObjection_keeps_store. exact Hm.
Qed.

Lemma holds_performed_all (cs : list Call) (m : Expected) (w : World) :
  Forall payload_round_trips cs ->
  holds m (store w) ->
  holds (fst (perform_all cs (m, w))) (store (snd (perform_all cs (m, w)))).
Proof.
  revert m w. induction cs as [|c cs IH]; intros m w Hcs Hm; [exact Hm|].
  inversion Hcs as [|? ? Hc Hcs']. subst. cbn [perform_all fst snd].
  apply IH; auto. now apply holds_performed.
Qed.

Lemma holds_nothing (d : DB) :
  subjects d = [] -> subject_keys d = [] -> holds nothing_expected d.
Proof.
  intros Hs Hk. split; [rewrite Hs; constructor|].
  intros x. unfold nothing_expected, keys_of. now rewrite Hk.
Qed.

(** X1.  From a store without subjects and keys, after any sequence of
    calls of the eight methods, under any environment, [getSubjectData]
    answers what a caller who kept track expects: the payload of the last
    resolved [initializeUser] of the subject when no resolved erasure
    came after it, and [NotFound] otherwise. *)
Theorem vault_answers_as_expected
  (cs : list Call) (w0 : World) (subjectId : SubjectId) :
  subjects (store w0) = [] ->
  subject_keys (store w0) = [] ->
  cipher_round_trips ->
  Forall payload_round_trips cs ->
  let m := fst (perform_all cs (nothing_expected, w0)) in
  let w := snd (perform_all cs (nothing_expected, w0)) in
  store_ok (tick w) = true ->
  getSubjectData subjectId w
  = (match m subjectId with
     | Some p => Resolved p
     | None => Rejected (NotFound "Subject not found")
     end, advance w).
Proof.
  intros Hs Hk Hcipher Hcs m w Hok.
  pose proof (@holds_performed_all cs nothing_expected w0 Hcs (@holds_nothing _ Hs Hk))
    as (Hnd & Hm).
  fold m in Hm. fold w in Hm, Hnd.
  rewrite (getSubjectData_reads _ _ Hok). specialize (Hm subjectId).
  destruct (m subjectId) as [p|].
  - destruct Hm as (Hp & s & k & -> & -> & Hdata).
    rewrite Hdata. cbn [key]. rewrite Hcipher, Hp. reflexivity.
  - rewrite Hm. now destruct (rows_of subjectId (store w)).
Qed.

(** *** What no sequence of calls does *)

Lemma initializeUser_subjects (subjectId : SubjectId) (p : json) (w w' : World)
  (r : Outcome unit) :
  initializeUser subjectId p w = (r, w') ->
  subject_processors (store w') = subject_processors (store w)
  /\ (map id (subjects (store w')) = map id (subjects (store w))
      \/ (rows_of subjectId (store w) = []
          /\ map id (subjects (store w')) = map id (subjects (store w)) ++ [subjectId])).
Proof.
  intros Hrun. destruct r as [[] | e].
  - apply initializeUser_resolved in Hrun. cbv zeta in Hrun.
    destruct (rows_of subjectId (store w)) as [|s0 rs] eqn:Er.
    + subst w'. cbn [store subjects subject_processors]. split; auto.
      right. split; auto. now rewrite map_app.
    + destruct (keys_of subjectId (store w)); subst w';
        cbn [store subjects subject_processors]; (split; [reflexivity|]); left;
        unfold rewritten; now apply ids_of_updated.
  - apply transaction_rejected_keeps_store in Hrun. rewrite Hrun. auto.
Qed.

Lemma erase_store (subjectId : SubjectId) (w w' : World) (r : Outcome unit) :
  eraseDataAndRevokeConsent subjectId w = (r, w') ->
  store w' = store w \/ store w' = erased subjectId (store w).
Proof.
  intros Hrun. destruct r as [[] | e].
  - apply erase_resolved in Hrun as (-> & _). now right.
  - apply erase_rejected_keeps_store in Hrun. now left.
Qed.

(** What [perform] can have done to the tables of subjects and of
    associations. *)
Lemma perform_subjects_and_associations (c : Call) (w : World) :
  let w' := snd (perform c w) in
  (map id (subjects (store w')) = map id (subjects (store w))
   \/ exists s, rows_of s (store w) = []
                /\ map id (subjects (store w')) = map id (subjects (store w)) ++ [s])
  /\ (forall a, In a (subject_processors (store w')) ->
                In a (subject_processors (store w))).
Proof.
  cbv zeta. destruct c as [s | s p | pr page | s | s dm ec rs | s | s o | s];
    cbn [perform snd].
  - rewrite getSubjectData_keeps_store. auto.
  - destruct (initializeUser s p w) as [r w1] eqn:Hrun. cbn [snd].
    apply initializeUser_subjects in Hrun as (-> & [H | H]); eauto.
  - rewrite listSubjects_keeps_store. auto.
  - destruct (eraseDataAndRevokeConsent s w) as [r w1] eqn:Hrun. cbn [snd].
    apply erase_store in Hrun as [-> | ->]; auto.
    split; auto. unfold erased. cbn [subject_processors].
    intros a Ha. now apply filter_In in Ha.
  - destruct (restrict s dm ec rs w) as [r w1] eqn:Hrun. cbn [snd].
    apply update_where_id_store in Hrun as [(_ & ->) | (_ & ->)]; auto.
    cbn [subjects subject_processors]. split; auto. left. now apply ids_of_updated.
  - rewrite getSubjectRestrictions_keeps_store. auto.
  - destruct (object s o w) as [r w1] eqn:Hrun. cbn [snd].
    apply update_where_id_store in Hrun as [(_ & ->) | (_ & ->)]; auto.
    cbn [subjects subject_processors]. split; auto. left. now apply ids_of_updated.
  - rewrite getSubjectObjection_keeps_store. auto.
Qed.

Lemma rows_of_at_most_one (x : SubjectId) (d : DB) :
  NoDup (map id (subjects d)) -> length (rows_of x d) <= 1.
Proof.
  intros Hnd. destruct (rows_of x d) as [|s rs] eqn:Er; simpl; [lia|].
  now rewrite (rows_of_single _ _ Hnd Er).
Qed.

(** X2.  Ids stay unique: from a store in which no two subject rows
    carry the same id, no sequence of calls leads to a store in which
    two do, and there [restrict] and [object] are never rejected with
    [Forbidden]. *)
Theorem ids_stay_unique (cs : list Call) (m : Expected) (w0 : World) :
  NoDup (map id (subjects (store w0))) ->
  let w := snd (perform_all cs (m, w0)) in
  NoDup (map id (subjects (store w)))
  /\ (forall s dm ec rs msg w',
        restrict s dm ec rs w <> (Rejected (Forbidden msg), w'))
  /\ (forall s o msg w', object s o w <> (Rejected (Forbidden msg), w')).
Proof.
  intros Hnd w.
  assert (Hw : NoDup (map id (subjects (store w)))).
  { subst w. revert m w0 Hnd. induction cs as [|c cs IH]; intros m w0 Hnd; [exact Hnd|].
    cbn [perform_all fst snd]. apply IH.
    destruct (perform_subjects_and_associations c w0) as ([E | (s & Er & E)] & _);
      rewrite E; auto.
    apply NoDup_app; [exact Hnd | repeat constructor; intros [] | ].
    intros x Hx [<- | []]. now apply (rows_of_nil_iff s (store w0)) in Er. }
  split; [exact Hw|].
  assert (Hupd : forall s f r w',
    (subjectUpdates <- statement (q_update_where_id s f) ;;
     if Nat.eqb subjectUpdates 0 then throw (NotFound "Subject not found")
     else if Nat.ltb 1 subjectUpdates
          then throw (Forbidden "Duplicated subject in the database")
          else ret tt) w = (r, w') ->
    forall msg, r <> Rejected (Forbidden msg)).
  { intros s f r w' Hrun msg. pose proof (rows_of_at_most_one s _ Hw) as Hlen.
    destruct (store_ok (tick w)) eqn:Hok.
    - rewrite (update_where_id_run _ _ _ Hok) in Hrun. cbv zeta in Hrun.
      destruct (length (rows_of s (store w))) as [|[|n]]; [| |lia];
        injection Hrun as <- _; discriminate.
    - unfold bind in Hrun. rewrite (statement_rejected _ _ Hok) in Hrun.
      injection Hrun as <- _. discriminate. }
  split.
  - intros s dm ec rs msg w' Hrun. now apply (Hupd _ _ _ _ Hrun msg).
  - intros s o msg w' Hrun. now apply (Hupd _ _ _ _ Hrun msg).
Qed.

(** X3.  The discipline of the table of keys is an invariant: from a
    store in which every subject has at most one key row, and none
    without a row in the table of subjects, every sequence of calls,
    whatever their outcomes, leads to such a store. *)
Theorem key_discipline_is_kept (cs : list Call) (m : Expected) (w0 : World) :
  key_discipline (store w0) ->
  key_discipline (store (snd (perform_all cs (m, w0)))).
Proof.
  revert m w0. induction cs as [|c cs IH]; intros m w0 Hd; [exact Hd|].
  cbn [perform_all fst snd]. apply IH.
  destruct c as [s | s p | pr page | s | s dm ec rs | s | s o | s]; cbn [perform snd].
  - now rewrite getSubjectData_keeps_store.
  - destruct (initializeUser s p w0) as [r w1] eqn:Hrun. cbn [snd].
    exact (@initializeUser_keeps_key_discipline _ _ _ s p w0 w1 r Hrun Hd).
  - now rewrite listSubjects_keeps_store.
  - destruct (eraseDataAndRevokeConsent s w0) as [r w1] eqn:Hrun. cbn [snd].
    exact (@erase_keeps_key_discipline _ s w0 w1 r Hrun Hd).
  - destruct (restrict s dm ec rs w0) as [r w1] eqn:Hrun. cbn [snd].
    exact (@restrict_keeps_key_discipline _ s dm ec rs w0 w1 r Hrun Hd).
  - now rewrite getSubjectRestrictions_keeps_store.
  - destruct (object s o w0) as [r w1] eqn:Hrun. cbn [snd].
    exact (@object_keeps_key_discipline _ s o w0 w1 r Hrun Hd).
  - now rewrite getSubjectObjection_keeps_store.
Qed.

(** X4.  No sequence of calls deletes a subject row or adds a processor
    association: the ids of the table of subjects after the calls are
    those from before, in their order, followed by the ids that were
    created, and every association after the calls was there before. *)
Theorem subjects_stay_and_associations_only_go
  (cs : list Call) (m : Expected) (w0 : World) :
  let w := snd (perform_all cs (m, w0)) in
  (exists created,
     map id (subjects (store w)) = map id (subjects (store w0)) ++ created)
  /\ (forall a, In a (subject_processors (store w)) ->
                In a (subject_processors (store w0))).
Proof.
  cbv zeta. revert m w0. induction cs as [|c cs IH]; intros m w0.
  - cbn [perform_all snd]. split; auto. exists []. now rewrite app_nil_r.
  - cbn [perform_all fst snd].
    destruct (IH (track c (fst (perform c w0)) m) (snd (perform c w0)))
      as ((created & Hids) & Hassoc).
    destruct (perform_subjects_and_associations c w0) as (Hstep & Hstep').
    split.
    + rewrite Hids. destruct Hstep as [E | (s & _ & E)]; rewrite E; eauto.
      rewrite <- app_assoc. eauto.
    + intros a Ha. auto.
Qed.

(** *** One subject at a time *)

(** X5.  [initializeUser] writes for its own subject only: whatever the
    outcome, the rows and the key rows of every other subject, and the
    table of associations, are those from before the call. *)
Theorem initializeUser_leaves_other_subjects
  (subjectId x : SubjectId) (p : json) (w w' : World) (r : Outcome unit) :
  initializeUser subjectId p w = (r, w') ->
  x <> subjectId ->
  rows_of x (store w') = rows_of x (store w)
  /\ keys_of x (store w') = keys_of x (store w)
  /\ subject_processors (store w') = subject_processors (store w).
Proof.
  intros Hrun Hx. destruct r as [[] | e].
  - apply initializeUser_resolved in Hrun. cbv zeta in Hrun.
    assert (Hrw : forall k t,
               filter (fun s => String.eqb (id s) x)
                      (rewritten subjectId p k t (subjects (store w)))
               = rows_of x (store w)).
    { intros k t. rewrite rewritten_rows.
      destruct (String.eqb_spec x subjectId); [congruence | reflexivity]. }
    destruct (rows_of subjectId (store w)) as [|s0 rs];
      [|destruct (keys_of subjectId (store w)) as [|kr ks]]; subst w'; cbn [store].
    + rewrite keys_of_inserted_other by exact Hx.
      unfold rows_of. cbn [subjects subject_processors]. rewrite filter_app. simpl.
      destruct (String.eqb_spec subjectId x); [congruence|].
      now rewrite app_nil_r.
    + rewrite keys_of_inserted_other by exact Hx.
      unfold rows_of at 1. cbn [subjects subject_processors]. now rewrite Hrw.
    + unfold rows_of at 1, keys_of at 1. cbn [subjects subject_keys subject_processors].
      now rewrite Hrw.
  - apply transaction_rejected_keeps_store in Hrun. now rewrite Hrun.
Qed.

(** X6.  The erasure of a subject leaves the key rows and the
    associations of every other subject as they were, whatever its
    outcome. *)
Theorem erase_leaves_other_subjects
  (subjectId x : SubjectId) (w w' : World) (r : Outcome unit) :
  eraseDataAndRevokeConsent subjectId w = (r, w') ->
  x <> subjectId ->
  keys_of x (store w') = keys_of x (store w)
  /\ processors_of x (store w') = processors_of x (store w).
Proof.
  intros Hrun Hx. apply erase_store in Hrun as [-> | ->]; auto.
  rewrite keys_of_erased, processors_of_erased.
  destruct (String.eqb_spec x subjectId); [congruence | auto].
Qed.

Lemma filter_negb_all {A : Type} (f : A -> bool) (l : list A) :
  filter f l = [] -> filter (fun x => negb (f x)) l = l.
Proof.
  induction l as [|a l IH]; simpl; auto.
  destruct (f a); simpl; [discriminate|]. intros H. now rewrite IH.
Qed.

(** X7.  The erasure does not ask whether there is anything to erase:
    for a subject without key row and without association, be it
    unknown or erased before, it resolves when the store and the ledger
    go along, leaves the three tables exactly as they were, and calls
    the ledger for that subject all the same. *)
Theorem erase_of_nothing_still_notifies (subjectId : SubjectId) (w : World) :
  keys_of subjectId (store w) = [] ->
  processors_of subjectId (store w) = [] ->
  store_ok (tick w) = true ->
  store_ok (1 + tick w) = true ->
  ledger_ok (2 + tick w) = true ->
  store_ok (3 + tick w) = true ->
  exists w',
    eraseDataAndRevokeConsent subjectId w = (Resolved tt, w')
    /\ store w' = store w
    /\ ledger_calls (events_of_run w w') = [subjectId].
Proof.
  intros Hk Hp H0 H1 H2 H3. rewrite erase_run. cbv zeta. rewrite H0, H1, H2, H3.
  eexists. split; [reflexivity|]. split.
  - cbn [store]. unfold erased. unfold keys_of in Hk. unfold processors_of in Hp.
    rewrite (filter_negb_all _ _ Hk), (filter_negb_all _ _ Hp).
    now destruct (store w).
  - erewrite events_of_run_app by (simpl; reflexivity). reflexivity.
Qed.

(** X8.  A subject that is initialized again after its erasure gets a
    new key, not its old one back, and keeps its row: one key is
    generated and becomes the only key row of the subject, and the id
    and the consent flags of every row are those from before the
    erasure.  With a cipher that opens under a key what it sealed under
    it, [getSubjectData] then gives what [JSON.parse] reads from the
    text [JSON.stringify] wrote for the new payload, which is the new
    payload itself exactly when [JSON.parse] reads it back. *)
Theorem initializeUser_after_erasure
  (subjectId : SubjectId) (p : json) (w w1 w2 : World) :
  rows_of subjectId (store w) <> [] ->
  (forall k, decryptFromStorage (Some (encryptForStorage (JSON_stringify p) k)) k
             = Some (JSON_stringify p)) ->
  eraseDataAndRevokeConsent subjectId w = (Resolved tt, w1) ->
  initializeUser subjectId p w1 = (Resolved tt, w2) ->
  store_ok (tick w2) = true ->
  keys_generated (events_of_run w1 w2) = [key_source (2 + tick w1)]
  /\ keys_of subjectId (store w2) = [mkSubjectKey subjectId (key_source (2 + tick w1))]
  /\ map consent_of (subjects (store w2)) = map consent_of (subjects (store w))
  /\ getSubjectData subjectId w2 = (read_back p, advance w2)
  /\ (getSubjectData subjectId w2 = (Resolved p, advance w2)
      <-> JSON_parse (JSON_stringify p) = Some p).
Proof.
  intros Hrows Hcipher Herase Hinit Hok.
  apply erase_resolved in Herase as (Hw1 & _).
  assert (Hr1 : rows_of subjectId (store w1) = rows_of subjectId (store w))
    by (subst w1; reflexivity).
  assert (Hk1 : keys_of subjectId (store w1) = []).
  { subst w1. cbn [store]. rewrite keys_of_erased. now rewrite String.eqb_refl. }
  assert (Hs1 : subjects (store w1) = subjects (store w)) by (subst w1; reflexivity).
  apply initializeUser_resolved in Hinit. cbv zeta in Hinit.
  rewrite Hr1, Hk1 in Hinit.
  destruct (rows_of subjectId (store w)) as [|s0 rs] eqn:Er; [now elim Hrows|].
  split; [rewrite Hinit; now erewrite events_of_run_app by (simpl; reflexivity)|].
  assert (Hk2 : keys_of subjectId (store w2)
                = [mkSubjectKey subjectId (key_source (2 + tick w1))]).
  { rewrite Hinit. cbn [store]. now rewrite keys_of_inserted, Hk1. }
  split; [exact Hk2|]. split.
  - rewrite Hinit. cbn [store subjects]. rewrite consent_of_rewritten. now rewrite Hs1.
  - assert (Hread : getSubjectData subjectId w2 = (read_back p, advance w2)).
    { rewrite (getSubjectData_reads _ _ Hok), Hk2.
      rewrite Hinit. cbn [store]. unfold rows_of in *. cbn [subjects].
      rewrite rows_of_rewritten, Hs1, Er.
      cbn [map set_personal_data personal_data key].
      rewrite Hcipher. unfold read_back.
      destruct (JSON_parse (JSON_stringify p)); reflexivity. }
    split; [exact Hread|]. rewrite Hread. unfold read_back.
    destruct (JSON_parse (JSON_stringify p)) as [v|]; split; intros E;
      try discriminate; congruence.
Qed.

(** *** [restrict] and [object] *)

(** X9.  [restrict] and [object] are not undone by their rejection:
    when the id is carried by more than one row and the store takes the
    update, the call is rejected with [Forbidden] and every row of the
    id carries the values of the call all the same. *)
Theorem forbidden_update_is_written
  (subjectId : SubjectId) (dm ec rs : bool) (o : option bool) (w : World) :
  store_ok (tick w) = true ->
  1 < length (rows_of subjectId (store w)) ->
  (exists w',
     restrict subjectId dm ec rs w
     = (Rejected (Forbidden "Duplicated subject in the database"), w')
     /\ length (rows_of subjectId (store w')) = length (rows_of subjectId (store w))
     /\ forall s, In s (rows_of subjectId (store w')) ->
                  direct_marketing s = dm /\ email_communication s = ec /\ research s = rs)
  /\ (exists w',
        object subjectId o w
        = (Rejected (Forbidden "Duplicated subject in the database"), w')
        /\ length (rows_of subjectId (store w')) = length (rows_of subjectId (store w))
        /\ forall s, In s (rows_of subjectId (store w')) -> objection s = o).
Proof.
  intros Hok Hn. unfold restrict, object.
  rewrite !(update_where_id_run _ _ _ Hok). cbv zeta.
  destruct (length (rows_of subjectId (store w))) as [|[|n]] eqn:En; try lia.
  split; eexists; (split; [reflexivity|]);
    unfold rows_of, q_update_where_id in *; cbn [store snd subjects advance with_store];
    rewrite rows_of_updated by reflexivity; rewrite length_map;
    (split; [exact En|]); intros s Hs; apply in_map_iff in Hs as (s' & <- & _);
    simpl; auto.
Qed.

Lemma rows_of_updated_other (x subjectId : SubjectId) (f : subject_row -> subject_row)
  (l : list subject_row) :
  (forall s, id (f s) = id s) ->
  x <> subjectId ->
  filter (fun s => String.eqb (id s) x)
         (map (fun s => if String.eqb (id s) subjectId then f s else s) l)
  = filter (fun s => String.eqb (id s) x) l.
Proof.
  intros Hid Hx. induction l as [|s l IH]; simpl; auto.
  destruct (String.eqb_spec (id s) subjectId) as [Es | Es]; rewrite IH.
  - rewrite Hid. destruct (String.eqb_spec (id s) x); [congruence | reflexivity].
  - reflexivity.
Qed.

Lemma map_updated_beside (A : Type) (g : subject_row -> A) (subjectId : SubjectId)
  (f : subject_row -> subject_row) (l : list subject_row) :
  (forall s, g (f s) = g s) ->
  map g (map (fun s => if String.eqb (id s) subjectId then f s else s) l) = map g l.
Proof.
  intros Hg. induction l as [|s l IH]; simpl; auto.
  rewrite IH. destruct (String.eqb (id s) subjectId); now rewrite ?Hg.
Qed.

(** X10.  [restrict] writes the three consent flags and [object] the
    objection, and nothing else: whatever the outcome, every row keeps
    its id, its personal data, its timestamps and the columns of the
    other method, the rows of the other subjects are those from before,
    and the tables of keys and of associations are untouched. *)
Theorem restrict_and_object_write_their_columns_only
  (subjectId : SubjectId) (dm ec rs : bool) (o : option bool) (w : World) :
  (forall r w',
     restrict subjectId dm ec rs w = (r, w') ->
     map beside_restrictions (subjects (store w'))
     = map beside_restrictions (subjects (store w))
     /\ (forall x, x <> subjectId -> rows_of x (store w') = rows_of x (store w))
     /\ subject_keys (store w') = subject_keys (store w)
     /\ subject_processors (store w') = subject_processors (store w))
  /\ (forall r w',
        object subjectId o w = (r, w') ->
        map beside_objection (subjects (store w'))
        = map beside_objection (subjects (store w))
        /\ (forall x, x <> subjectId -> rows_of x (store w') = rows_of x (store w))
        /\ subject_keys (store w') = subject_keys (store w)
        /\ subject_processors (store w') = subject_processors (store w)).
Proof.
  split; intros r w' Hrun;
    apply update_where_id_store in Hrun as [(_ & ->) | (_ & ->)]; auto;
    cbn [subjects subject_keys subject_processors];
    (split; [now apply map_updated_beside|]); (split; [|auto]);
    intros x Hx; unfold rows_of; cbn [subjects];
    now apply rows_of_updated_other.
Qed.

(** *** The ledger and the key generator *)

Lemma events_of_run_same (w w' : World) : trace w' = trace w -> events_of_run w w' = [].
Proof.
  intros E. apply events_of_run_app. now rewrite app_nil_r.
Qed.

Lemma initializeUser_events (subjectId : SubjectId) (p : json) (w : World) :
  exists evs,
    trace (snd (initializeUser subjectId p w)) = trace w ++ evs
    /\ ledger_calls evs = []
    /\ length (keys_generated evs) <= 1.
Proof.
  unfold initializeUser, transaction, _initializeUserInTransaction,
    _updateExistingSubject, _createNewSubject, _saveSubjectEncryptionKey,
    bind, statement, generateClientKey, ret,
    q_subject_by_id, q_key_by_subject, q_insert_key, q_insert_subject,
    q_update_personal_data.
  repeat (cbn [tick emit advance with_store store fst snd trace];
          match goal with
          | |- context [store_ok ?t] => destruct (store_ok t)
          | |- context [first_row ?l] => destruct (first_row l)
          end);
    cbn [tick emit advance with_store store fst snd trace];
    rewrite <- ?app_assoc; eexists; (split; [reflexivity|]); simpl; auto.
Qed.

Lemma update_where_id_trace (subjectId : SubjectId) (f : subject_row -> subject_row)
  (w : World) :
  trace (snd ((subjectUpdates <- statement (q_update_where_id subjectId f) ;;
               if Nat.eqb subjectUpdates 0 then throw (NotFound "Subject not found")
               else if Nat.ltb 1 subjectUpdates
                    then throw (Forbidden "Duplicated subject in the database")
                    else ret tt) w))
  = trace w.
Proof.
  unfold bind, statement, throw, ret, q_update_where_id.
  destruct (store_ok (tick w)); [|reflexivity].
  destruct (Nat.eqb _ 0); [reflexivity|]. destruct (Nat.ltb 1 _); reflexivity.
Qed.

Lemma reads_keep_trace (w : World) :
  (forall s, trace (snd (getSubjectData s w)) = trace w)
  /\ (forall s, trace (snd (getSubjectRestrictions s w)) = trace w)
  /\ (forall s, trace (snd (getSubjectObjection s w)) = trace w)
  /\ (forall p page, trace (snd (listSubjects p page w)) = trace w).
Proof.
  repeat split.
  - intros s. unfold getSubjectData, bind, statement, throw, ret, q_subject_data.
    destruct (store_ok (tick w)); [|reflexivity].
    destruct (first_row _) as [[c k]|]; [|reflexivity].
    cbn [fst snd]. destruct (decryptFromStorage c k) as [t|]; [|reflexivity].
    destruct (JSON_parse t); reflexivity.
  - intros s. unfold getSubjectRestrictions, bind, statement, throw, ret, q_restrictions.
    destruct (store_ok (tick w)); [|reflexivity]. destruct (first_row _); reflexivity.
  - intros s. unfold getSubjectObjection, bind, statement, throw, ret, q_objection.
    destruct (store_ok (tick w)); [|reflexivity]. destruct (first_row _); reflexivity.
  - intros p page.
    unfold listSubjects, bind, statement, throw, ret, q_count_listed, q_page_listed.
    destruct (store_ok (tick w)); [|reflexivity].
    destruct (Z.gtb _ _); [reflexivity|]. destruct (Z.ltb _ _); [reflexivity|].
    destruct (store_ok _); reflexivity.
Qed.

(** X11.  Only the erasure calls the ledger and only [initializeUser]
    draws keys: a call of any other method makes no ledger call, a call
    of any method but [initializeUser] generates no key, and no call
    makes more than one ledger call or generates more than one key. *)
Theorem ledger_and_keys_by_method (c : Call) (w : World) :
  let evs := events_of_run w (snd (perform c w)) in
  ((forall s, c <> CallErase s) -> ledger_calls evs = [])
  /\ ((forall s p, c <> CallInitializeUser s p) -> keys_generated evs = [])
  /\ length (ledger_calls evs) <= 1
  /\ length (keys_generated evs) <= 1.
Proof.
  cbv zeta. destruct (reads_keep_trace w) as (Hd & Hr & Ho & Hl).
  destruct c as [s | s p | pr page | s | s dm ec rs | s | s o | s]; cbn [perform snd].
  - rewrite (@events_of_run_same _ _ (Hd s)). simpl. auto.
  - destruct (initializeUser_events s p w) as (evs & Ht & Hlc & Hkg).
    rewrite (@events_of_run_app _ _ _ Ht), Hlc. simpl. repeat split; auto.
    intros H. now elim (H s p).
  - rewrite (@events_of_run_same _ _ (Hl pr page)). simpl. auto.
  - rewrite erase_run. cbv zeta.
    destruct (store_ok (tick w)); [destruct (store_ok (1 + tick w));
      [destruct (ledger_ok (2 + tick w)); [destruct (store_ok (3 + tick w))|]|]|];
      cbn [snd]; (erewrite events_of_run_app by (simpl; reflexivity)); simpl;
      repeat split; auto; intros H; now elim (H s).
  - unfold restrict. rewrite (@events_of_run_same _ _ (update_where_id_trace _ _ w)).
    simpl. auto.
  - rewrite (@events_of_run_same _ _ (Hr s)). simpl. auto.
  - unfold object. rewrite (@events_of_run_same _ _ (update_where_id_trace _ _ w)).
    simpl. auto.
  - rewrite (@events_of_run_same _ _ (Ho s)). simpl. auto.
Qed.

End Vault.

(** ** The listing *)

Section Listing.

Context {env : Environment}.

Lemma insert_by_id_perm {A : Type} (f : A -> SubjectId) (x : A) (l : list A) :
  Permutation (insert_by_id f x l) (x :: l).
Proof.
  induction l as [|y l IH]; simpl; auto.
  destruct (String.leb (f x) (f y)); auto.
  rewrite IH. apply perm_swap.
Qed.

Lemma order_by_id_perm {A : Type} (f : A -> SubjectId) (l : list A) :
  Permutation (order_by_id f l) l.
Proof.
  unfold order_by_id. induction l as [|x l IH]; simpl; auto.
  rewrite insert_by_id_perm. now constructor.
Qed.

Lemma insert_by_id_sorted {A : Type} (f : A -> SubjectId) (x : A) (l : list A) :
  Sorted (fun a b => String.leb (f a) (f b) = true) l ->
  Sorted (fun a b => String.leb (f a) (f b) = true) (insert_by_id f x l).
Proof.
  induction l as [|y l IH]; simpl; intros Hs.
  - repeat constructor.
  - destruct (String.leb (f x) (f y)) eqn:E.
    + constructor; auto.
    + inversion Hs as [|? ? Hs' Hd]. subst. constructor; [now apply IH|].
      assert (Eyx : String.leb (f y) (f x) = true).
      { destruct (String.leb_total (f x) (f y)); congruence. }
      destruct l as [|z l]; simpl.
      * now constructor.
      * destruct (String.leb (f x) (f z)); constructor; auto.
        now inversion Hd.
Qed.

Lemma order_by_id_sorted {A : Type} (f : A -> SubjectId) (l : list A) :
  Sorted (fun a b => String.leb (f a) (f b) = true) (order_by_id f l).
Proof.
  unfold order_by_id. induction l as [|x l IH]; simpl.
  - constructor.
  - now apply insert_by_id_sorted.
Qed.

Lemma Sorted_map {A B : Type} (R : B -> B -> Prop) (g : A -> B) (l : list A) :
  Sorted (fun a b => R (g a) (g b)) l -> Sorted R (map g l).
Proof.
  induction 1 as [|a l Hs IH Hd]; simpl; constructor; auto.
  destruct Hd; simpl; constructor; auto.
Qed.

Lemma Sorted_skipn {A : Type} (R : A -> A -> Prop) (n : nat) (l : list A) :
  Sorted R l -> Sorted R (skipn n l).
Proof.
  revert l. induction n as [|n IH]; intros l Hs; simpl; auto.
  destruct l as [|a l]; auto. apply IH. now inversion Hs.
Qed.

Lemma Sorted_firstn {A : Type} (R : A -> A -> Prop) (n : nat) (l : list A) :
  Sorted R l -> Sorted R (firstn n l).
Proof.
  revert l. induction n as [|n IH]; intros l Hs; simpl; [constructor|].
  destruct l as [|a l]; [constructor|].
  inversion Hs as [|? ? Hs' Hd]. subst. constructor; [now apply IH|].
  destruct Hd; destruct n; simpl; constructor; auto.
Qed.

Lemma In_page {A : Type} (a b : nat) (l : list A) (x : A) :
  In x (firstn a (skipn b l)) -> In x l.
Proof.
  intros H. rewrite <- (firstn_skipn b l). apply in_or_app. right.
  rewrite <- (firstn_skipn a (skipn b l)). apply in_or_app. now left.
Qed.

Lemma listed_rows_sorted (p : ProcessorId) (d : DB) : Sorted id_le (listed_rows p d).
Proof.
  unfold listed_rows, id_le. apply Sorted_map. cbn [fst].
  apply (order_by_id_sorted (fun r : subject_row * subject_key_row * subject_processor_row
                              => id (fst (fst r)))).
Qed.

Lemma length_listed_rows (p : ProcessorId) (d : DB) :
  length (listed_rows p d) = length (listed p d).
Proof.
  unfold listed_rows. rewrite length_map.
  apply Permutation_length, order_by_id_perm.
Qed.

(** What a resolved [listSubjects] has answered. *)
Lemma listSubjects_resolved (processorId : ProcessorId) (page : option Z)
  (w w' : World) (l : Listing) :
  listSubjects processorId page w = (Resolved l, w') ->
  let p := match page with Some p => p | None => 1%Z end in
  let t := page_total (Z.of_nat (length (listed processorId (store w)))) in
  (1 <= p <= t)%Z
  /\ l = mkListing
           (firstn 10 (skipn (Z.to_nat ((p - 1) * 10))
                             (listed_rows processorId (store w))))
           (mkPaging p t).
Proof.
  cbv zeta. unfold listSubjects, bind, statement, throw, ret, q_count_listed.
  destruct (store_ok (tick w)); [|discriminate].
  change (if Z.eqb (Math_ceil_div (Z.of_nat (length (listed processorId (store w))))
                                  PAGE_SIZE) 0
          then 1%Z
          else Math_ceil_div (Z.of_nat (length (listed processorId (store w)))) PAGE_SIZE)
    with (page_total (Z.of_nat (length (listed processorId (store w))))).
  set (t := page_total _). set (p := match page with Some p => p | None => 1%Z end).
  destruct (Z.gtb_spec p t) as [Hgt | Hle]; [discriminate|].
  destruct (Z.ltb_spec p 1) as [Hlt | Hge]; [discriminate|].
  destruct (store_ok _); [|discriminate].
  unfold q_page_listed. cbn [fst snd store advance with_store].
  intros E. injection E as <- _. split; [lia|].
  unfold listed_rows, PAGE_SIZE. rewrite skipn_map, firstn_map. reflexivity.
Qed.

(** With a store that answers, a page within the bounds resolves. *)
Lemma listSubjects_resolves (processorId : ProcessorId) (p : Z) (w : World) :
  (forall n, store_ok n = true) ->
  (1 <= p <= page_total (Z.of_nat (length (listed processorId (store w)))))%Z ->
  fst (listSubjects processorId (Some p) w)
  = Resolved
      (mkListing
         (firstn 10 (skipn (Z.to_nat ((p - 1) * 10))
                           (listed_rows processorId (store w))))
         (mkPaging p (page_total (Z.of_nat (length (listed processorId (store w))))))).
Proof.
  intros Hok Hp.
  destruct (listSubjects processorId (Some p) w) as [[l | e] w'] eqn:Hrun.
  - apply listSubjects_resolved in Hrun as (_ & ->). reflexivity.
  - exfalso. revert Hrun.
    unfold listSubjects, bind, statement, throw, ret, q_count_listed. rewrite Hok.
    change (if Z.eqb (Math_ceil_div (Z.of_nat (length (listed processorId (store w))))
                                    PAGE_SIZE) 0
            then 1%Z
            else Math_ceil_div (Z.of_nat (length (listed processorId (store w)))) PAGE_SIZE)
      with (page_total (Z.of_nat (length (listed processorId (store w))))).
    destruct (Z.gtb_spec p (page_total (Z.of_nat (length (listed processorId (store w))))));
      [lia|].
    destruct (Z.ltb_spec p 1); [lia|]. rewrite Hok.
    destruct (q_page_listed _ _ _ _). discriminate.
Qed.

Lemma In_listed (processorId : ProcessorId) (d : DB)
  (r : subject_row * subject_key_row * subject_processor_row) :
  In r (listed processorId d) ->
  In (fst (fst r)) (subjects d)
  /\ In (snd (fst r)) (subject_keys d)
  /\ In (snd r) (subject_processors d)
  /\ key_subject_id (snd (fst r)) = id (fst (fst r))
  /\ sp_subject_id (snd r) = id (fst (fst r))
  /\ processor_id (snd r) = processorId
  /\ personal_data (fst (fst r)) <> None.
Proof.
  unfold listed. intros H. apply filter_In in H as (H & Hf).
  apply andb_prop in Hf as (Hp & Hd). apply Nat.eqb_eq in Hp.
  apply in_flat_map in H as ((s, k) & Hsk & H).
  apply in_map_iff in H as (a & <- & Ha). apply filter_In in Ha as (Ha & Ea).
  apply String.eqb_eq in Ea. apply In_join_keys in Hsk as (Hs & Hk & Ek).
  cbn [fst snd] in *. repeat split; auto.
  intros Hn. rewrite Hn in Hd. discriminate.
Qed.

(** X12.  A listing names only subjects that can be read for the
    processor: every entry of a resolved [listSubjects] is the id and
    the creation time of a subject row that has personal data, a key
    row and an association with the processor of the call. *)
Theorem listSubjects_lists_readable_subjects
  (processorId : ProcessorId) (page : option Z) (w w' : World) (l : Listing)
  (i : SubjectId) (created : Timestamp) :
  listSubjects processorId page w = (Resolved l, w') ->
  In (i, created) (data l) ->
  (exists s, In s (subjects (store w)) /\ id s = i /\ created_at s = created
             /\ personal_data s <> None)
  /\ keys_of i (store w) <> []
  /\ In (mkSubjectProcessor i processorId) (subject_processors (store w)).
Proof.
  intros Hrun Hin. apply listSubjects_resolved in Hrun as (_ & ->). cbn [data] in Hin.
  apply In_page in Hin.
  unfold listed_rows in Hin. apply in_map_iff in Hin as (r & E & Hr).
  injection E as <- <-.
  apply (Permutation_in _ (order_by_id_perm _ _)) in Hr.
  apply In_listed in Hr as (Hs & Hk & Ha & Ek & Ea & Ep & Hd).
  split; [eauto|]. split.
  - intros Hnone.
    assert (Hink : In (snd (fst r)) (keys_of (id (fst (fst r))) (store w))).
    { apply filter_In. split; auto. now apply String.eqb_eq. }
    rewrite Hnone in Hink. inversion Hink.
  - destruct (snd r) as [sid pid] eqn:Er. cbn [sp_subject_id processor_id] in *.
    now subst.
Qed.

(** X13.  An erased subject is off every listing: after a resolved
    erasure no resolved [listSubjects], for any processor and any page,
    names the subject. *)
Theorem erased_subject_is_not_listed
  (subjectId : SubjectId) (w w1 w2 : World)
  (processorId : ProcessorId) (page : option Z) (l : Listing) :
  eraseDataAndRevokeConsent subjectId w = (Resolved tt, w1) ->
  listSubjects processorId page w1 = (Resolved l, w2) ->
  ~ In subjectId (map fst (data l)).
Proof.
  intros Herase Hrun Hin. apply listSubjects_resolved in Hrun as (_ & ->).
  cbn [data] in Hin. apply in_map_iff in Hin as ((i, c) & E & Hin). cbn [fst] in E.
  subst i. apply In_page in Hin.
  unfold listed_rows in Hin. apply in_map_iff in Hin as (r & E & Hr).
  injection E as Ei _.
  apply (Permutation_in _ (order_by_id_perm _ _)) in Hr.
  apply In_listed in Hr as (_ & Hk & _ & Ek & _).
  rewrite erase_run in Herase. cbv zeta in Herase.
  destruct (store_ok (tick w)); [destruct (store_ok (1 + tick w));
    [destruct (ledger_ok (2 + tick w)); [destruct (store_ok (3 + tick w))|]|]|];
    try discriminate.
  injection Herase as <-. cbn [store erased subject_keys] in Hk.
  apply filter_In in Hk as (_ & Hneq). rewrite Ek, Ei, String.eqb_refl in Hneq.
  discriminate.
Qed.

(** X14.  A page holds at most ten entries, in ascending order of their
    ids. *)
Theorem listSubjects_page_is_short_and_ordered
  (processorId : ProcessorId) (page : option Z) (w w' : World) (l : Listing) :
  listSubjects processorId page w = (Resolved l, w') ->
  length (data l) <= 10 /\ Sorted id_le (data l).
Proof.
  intros Hrun. apply listSubjects_resolved in Hrun as (_ & ->). cbn [data]. split.
  - apply firstn_le_length.
  - apply Sorted_firstn, Sorted_skipn, listed_rows_sorted.
Qed.

(** X15.  The pages are full up to the last one: a resolved
    [listSubjects] for page [p] of [n] matching rows holds
    [min 10 (n - 10 (p - 1))] entries, and at least one when anything
    matches. *)
Theorem listSubjects_page_length
  (processorId : ProcessorId) (page : option Z) (w w' : World) (l : Listing) :
  listSubjects processorId page w = (Resolved l, w') ->
  let n := length (listed processorId (store w)) in
  let p := Z.to_nat (current (paging l)) in
  length (data l) = Nat.min 10 (n - 10 * (p - 1))
  /\ (0 < n -> 0 < length (data l)).
Proof.
  intros Hrun. apply listSubjects_resolved in Hrun as (Hp & ->). cbv zeta in *.
  cbn [data paging current].
  set (n := length (listed processorId (store w))) in *.
  set (p := match page with Some p => p | None => 1%Z end) in *.
  pose proof (page_total_spec n) as Ht. cbv zeta in Ht.
  rewrite length_firstn, length_skipn, length_listed_rows. fold n.
  replace (Z.to_nat ((p - 1) * 10)) with (10 * (Z.to_nat p - 1)) by lia.
  split; [reflexivity|]. intros Hn. lia.
Qed.

Lemma firstn_plus {A : Type} (a b : nat) (l : list A) :
  firstn (a + b) l = firstn a l ++ firstn b (skipn a l).
Proof.
  revert l. induction a as [|a IH]; intros l; simpl; auto.
  destruct l as [|x l]; simpl.
  - now rewrite firstn_nil.
  - now rewrite IH.
Qed.

Lemma pages_up_to {A : Type} (k : nat) (l : list A) :
  concat (map (fun p => firstn 10 (skipn (10 * (p - 1)) l)) (seq 1 k))
  = firstn (10 * k) l.
Proof.
  induction k as [|k IH]; [reflexivity|].
  rewrite seq_S, map_app, concat_app, IH. cbn [map concat]. rewrite app_nil_r.
  replace (1 + k - 1) with k by lia.
  replace (10 * S k) with (10 * k + 10) by lia.
  now rewrite firstn_plus.
Qed.

(** X16.  Paging through a listing visits every matching row once: with
    a store that answers, the pages 1 to the total, one after the other,
    are the matching rows in ascending order of their ids, which are the
    ids and creation times of the rows the listing joins, rearranged. *)
Theorem listSubjects_pages_cover_the_listing (processorId : ProcessorId) (w : World) :
  (forall n, store_ok n = true) ->
  let t := Z.to_nat (page_total (Z.of_nat (length (listed processorId (store w))))) in
  concat (map (fun p => data_of (fst (listSubjects processorId (Some (Z.of_nat p)) w)))
              (seq 1 t))
  = listed_rows processorId (store w)
  /\ Permutation
       (listed_rows processorId (store w))
       (map (fun r => (id (fst (fst r)), created_at (fst (fst r))))
            (listed processorId (store w))).
Proof.
  intros Hok t. split.
  - pose proof (page_total_spec (length (listed processorId (store w)))) as Ht.
    cbv zeta in Ht.
    rewrite (map_ext_in _ (fun p => firstn 10 (skipn (10 * (p - 1))
                                         (listed_rows processorId (store w))))).
    + rewrite pages_up_to. apply firstn_all2. rewrite length_listed_rows. lia.
    + intros p Hp. apply in_seq in Hp.
      rewrite (listSubjects_resolves processorId w Hok) by lia.
      cbn [data_of data]. f_equal. f_equal. lia.
  - unfold listed_rows. apply Permutation_map, order_by_id_perm.
Qed.

End Listing.

(** ** The processors provider *)

Module ProcessorsFacts.
Import ProcessorsProvider.

Section Provider.

Context {backend : Backend} {js : Json}.

Lemma flush_one (promise : nat) (w : Ui) :
  pending w = [promise] ->
  flushPromises w
  = match answer promise with
    | Fulfilled ps => mkUi (mkState ps false) (seen w) (sent w) []
    | Failed _ => mkUi (state w) (seen w) (sent w) []
    end.
Proof.
  intros Hp. unfold flushPromises. rewrite Hp. cbn [fold_left].
  unfold fetchProcessors_resume. destruct (answer promise); reflexivity.
Qed.

Lemma refresh_started (w : Ui) :
  refreshProcessors w
  = mkUi (mkState (processors (state w)) true)
         (seen w ++ [Sent (mkRequest endpoint None)])
         (S (sent w))
         (pending w ++ [sent w]).
Proof. reflexivity. Qed.

(** X17.  [fetchProcessors] sends one request, without options, to the
    processors endpoint.  When it is answered the list of the state is
    the answer and the loading flag is cleared; when it fails the
    method is rejected with the same error, the list is the one from
    before, and the loading flag stays set. *)
Theorem fetchProcessors_outcomes (w : Ui) :
  seen (snd (fetchProcessors w)) = seen w ++ [Sent (mkRequest endpoint None)]
  /\ sent (snd (fetchProcessors w)) = S (sent w)
  /\ (forall ps,
        answer (sent w) = Fulfilled ps ->
        fst (fetchProcessors w) = Fulfilled tt
        /\ state (snd (fetchProcessors w)) = mkState ps false)
  /\ (forall e,
        answer (sent w) = Failed e ->
        fst (fetchProcessors w) = Failed e
        /\ state (snd (fetchProcessors w)) = mkState (processors (state w)) true).
Proof.
  unfold fetchProcessors, fetchProcessors_begin, fetchProcessors_resume,
    _getProcessors, internalFetch, setLoading, setState.
  cbn [sent state seen pending].
  destruct (answer (sent w)) as [v | e']; cbn [fst snd seen sent state];
    (split; [reflexivity|]); (split; [reflexivity|]); split; intros x E;
    try discriminate; injection E as <-; auto.
Qed.

(** X18.  A mutation the backend fails is rejected with the error of
    the backend, clears the loading flag and stops there: the list is
    the one from before, no toast is shown, no refresh is started, and
    the one request that was sent is the mutation itself. *)
Theorem failed_mutation_stops (processor : json) (w : Ui) (e : string) :
  answer (sent w) = Failed e ->
  (fst (addProcessor processor w) = Failed e
   /\ snd (addProcessor processor w)
      = mkUi (mkState (processors (state w)) false)
             (seen w ++ [Sent (mkRequest endpoint
                                 (Some (mkOptions POST (JSON_stringify processor))))])
             (S (sent w)) (pending w))
  /\ (fst (updateProcessor processor w) = Failed e
      /\ snd (updateProcessor processor w)
         = mkUi (mkState (processors (state w)) false)
                (seen w ++ [Sent (mkRequest endpoint
                                    (Some (mkOptions PUT (JSON_stringify processor))))])
                (S (sent w)) (pending w))
  /\ (fst (deleteProcessor processor w) = Failed e
      /\ snd (deleteProcessor processor w)
         = mkUi (mkState (processors (state w)) false)
                (seen w ++ [Sent (mkRequest endpoint
                                    (Some (mkOptions DELETE
                                       (JSON_stringify
                                          (JObj [("processorIds", JArr [processor])])))))])
                (S (sent w)) (pending w)).
Proof.
  intros He.
  unfold addProcessor, updateProcessor, deleteProcessor, _addProcessor,
    _updateProcessor, _deleteProcessor, internalFetch, cancelLoadingAndReject,
    setLoading, setState.
  rewrite He. cbn [fst snd state seen sent pending]. repeat split.
Qed.

(** X19.  [addProcessor] and [updateProcessor], once the backend has
    taken the mutation, resolve to the answer of the backend, show
    their toast and start a refresh: the request of the mutation, the
    toast and the request of the refresh are seen in this order, the
    loading flag is set and the list is still the one from before.
    When the promises are flushed, an answered refresh replaces the
    list and clears the flag, and a failed refresh is dropped, leaving
    the list as it was and the loading flag set. *)
Theorem taken_mutation_refreshes (processor v : json) (w : Ui) :
  answer (sent w) = Fulfilled v ->
  pending w = [] ->
  let outcome_of (m : Method) (msg : string) (r : Settled json * Ui) :=
    fst r = Fulfilled v
    /\ seen (snd r)
       = seen w ++ [Sent (mkRequest endpoint
                            (Some (mkOptions m (JSON_stringify processor))));
                    ToastSuccess msg;
                    Sent (mkRequest endpoint None)]
    /\ state (snd r) = mkState (processors (state w)) true
    /\ pending (snd r) = [S (sent w)]
    /\ state (flushPromises (snd r))
       = match answer (S (sent w)) with
         | Fulfilled ps => mkState ps false
         | Failed _ => mkState (processors (state w)) true
         end
    /\ seen (flushPromises (snd r)) = seen (snd r)
    /\ pending (flushPromises (snd r)) = [] in
  outcome_of POST "Processor successfully added." (addProcessor processor w)
  /\ outcome_of PUT "Processor successfully updated." (updateProcessor processor w).
Proof.
  intros Hv Hp. cbv zeta.
  unfold addProcessor, updateProcessor, _addProcessor, _updateProcessor, internalFetch.
  rewrite Hv. cbn [fst snd]. rewrite !refresh_started.
  unfold toast_success. cbn [state seen sent pending]. rewrite Hp.
  split; (split; [reflexivity|]); (split; [now rewrite <- !app_assoc|]);
    (split; [reflexivity|]); (split; [reflexivity|]);
    rewrite (@flush_one (S (sent w))) by reflexivity;
    destruct (answer (S (sent w))); cbn [state seen pending]; auto.
Qed.

(** X20.  [deleteProcessor] never tells whether anything was deleted: it
    sends the id wrapped in [processorIds], and once the backend has
    taken the request it resolves to [undefined] whatever the backend
    answered, shows its toast and starts a refresh. *)
Theorem deleteProcessor_resolves_to_undefined (processorId v : json) (w : Ui) :
  answer (sent w) = Fulfilled v ->
  fst (deleteProcessor processorId w) = Fulfilled None
  /\ seen (snd (deleteProcessor processorId w))
     = seen w
       ++ [Sent (mkRequest endpoint
                   (Some (mkOptions DELETE
                            (JSON_stringify
                               (JObj [("processorIds", JArr [processorId])])))));
           ToastSuccess "Processor successfully deleted.";
           Sent (mkRequest endpoint None)]
  /\ state (snd (deleteProcessor processorId w)) = mkState (processors (state w)) true
  /\ pending (snd (deleteProcessor processorId w)) = pending w ++ [S (sent w)].
Proof.
  intros Hv.
  unfold deleteProcessor, _deleteProcessor, internalFetch.
  rewrite Hv. cbn [fst snd]. rewrite refresh_started.
  unfold toast_success. cbn [state seen sent pending].
  repeat split. now rewrite <- !app_assoc.
Qed.

End Provider.

End ProcessorsFacts.

(** ** The runs the further statements are instantiated on *)

Module MoreRuns.
Import Reference.

Lemma sealing_round_trips : @cipher_round_trips sealing.
Proof. intros text k. apply Runs.unseal_seal. Qed.

Lemma calm_store_answers : forall n, @store_ok calm n = true.
Proof. reflexivity. Qed.

Lemma vault_answers_as_expected_witness :
  (subjects (store world0) = []
   /\ subject_keys (store world0) = []
   /\ @cipher_round_trips sealing
   /\ Forall (@payload_round_trips compact_json) story)
  /\ @getSubjectData calm sealing compact_json "s2"
       (snd (@perform_all calm sealing compact_json story (nothing_expected, world0)))
     = (Resolved alice,
        advance (snd (@perform_all calm sealing compact_json story
                        (nothing_expected, world0)))).
Proof.
  assert (Hstory : Forall (@payload_round_trips compact_json) story)
    by (repeat constructor).
  split; [repeat split; auto using sealing_round_trips|].
  exact (@vault_answers_as_expected calm sealing compact_json story world0 "s2"
           eq_refl eq_refl sealing_round_trips Hstory eq_refl).
Defined.

Lemma ids_stay_unique_witness :
  NoDup (map id (subjects (store world1)))
  /\ NoDup (map id (subjects (store
              (snd (@perform_all calm sealing compact_json story
                      (nothing_expected, world1)))))).
Proof.
  assert (H : NoDup (map id (subjects (store world1))))
    by (repeat constructor; intros []).
  split; [exact H|].
  apply (@ids_stay_unique calm sealing compact_json story nothing_expected world1 H).
Defined.

Lemma key_discipline_is_kept_witness :
  key_discipline (store world0)
  /\ key_discipline
       (store (snd (@perform_all calm sealing compact_json story
                      (nothing_expected, world0)))).
Proof.
  assert (H : key_discipline (store world0)) by (intros s; split; simpl; auto).
  split; [exact H|].
  apply (@key_discipline_is_kept calm sealing compact_json story nothing_expected
           world0 H).
Defined.

Lemma initializeUser_leaves_other_subjects_witness :
  (@initializeUser calm sealing compact_json "s2" bob world1 = (Resolved tt, world1_s2)
   /\ "s1" <> "s2")
  /\ (rows_of "s1" (store world1_s2) = rows_of "s1" (store world1)
      /\ keys_of "s1" (store world1_s2) = keys_of "s1" (store world1)
      /\ subject_processors (store world1_s2) = subject_processors (store world1)).
Proof.
  split; [split; [reflexivity | discriminate]|].
  apply (@initializeUser_leaves_other_subjects calm sealing compact_json
           "s2" "s1" bob world1 world1_s2 (Resolved tt)); [reflexivity | discriminate].
Defined.

Lemma erase_leaves_other_subjects_witness :
  (@eraseDataAndRevokeConsent calm "s2" world1_s2 = (Resolved tt, world1_s2_erased)
   /\ "s1" <> "s2")
  /\ (keys_of "s1" (store world1_s2_erased) = keys_of "s1" (store world1_s2)
      /\ processors_of "s1" (store world1_s2_erased)
         = processors_of "s1" (store world1_s2)).
Proof.
  split; [split; [reflexivity | discriminate]|].
  apply (@erase_leaves_other_subjects calm "s2" "s1" world1_s2 world1_s2_erased
           (Resolved tt)); [reflexivity | discriminate].
Defined.

Lemma erase_of_nothing_still_notifies_witness :
  (keys_of "nobody" (store world1) = []
   /\ processors_of "nobody" (store world1) = []
   /\ @store_ok calm (tick world1) = true
   /\ @store_ok calm (1 + tick world1) = true
   /\ @ledger_ok calm (2 + tick world1) = true
   /\ @store_ok calm (3 + tick world1) = true)
  /\ exists w',
      @eraseDataAndRevokeConsent calm "nobody" world1 = (Resolved tt, w')
      /\ store w' = store world1
      /\ ledger_calls (events_of_run world1 w') = ["nobody"].
Proof.
  split; [repeat split|].
  apply (@erase_of_nothing_still_notifies calm "nobody" world1); reflexivity.
Defined.

Lemma initializeUser_after_erasure_witness :
  (rows_of "s1" (store world1) <> []
   /\ (forall k, @decryptFromStorage sealing
                   (Some (@encryptForStorage sealing (stringify bob) k)) k
                 = Some (stringify bob))
   /\ @eraseDataAndRevokeConsent calm "s1" world1 = (Resolved tt, world1_erased)
   /\ @initializeUser calm sealing compact_json "s1" bob world1_erased
      = (Resolved tt, world1_again)
   /\ @store_ok calm (tick world1_again) = true)
  /\ (keys_generated (events_of_run world1_erased world1_again)
      = [@key_source calm (2 + tick world1_erased)]
      /\ keys_of "s1" (store world1_again)
         = [mkSubjectKey "s1" (@key_source calm (2 + tick world1_erased))]
      /\ map consent_of (subjects (store world1_again))
         = map consent_of (subjects (store world1))
      /\ @getSubjectData calm sealing compact_json "s1" world1_again
         = (Resolved bob, advance world1_again)).
Proof.
  assert (Hrows : rows_of "s1" (store world1) <> []) by discriminate.
  assert (Hcipher : forall k, @decryptFromStorage sealing
                      (Some (@encryptForStorage sealing (stringify bob) k)) k
                    = Some (stringify bob))
    by (intros k; apply Runs.unseal_seal).
  split.
  - repeat split; try reflexivity; auto.
  - destruct (@initializeUser_after_erasure calm sealing compact_json
               "s1" bob world1 world1_erased world1_again
               Hrows Hcipher eq_refl eq_refl eq_refl)
      as (Ha & Hb & Hc & Hd & _).
    repeat (split; [assumption|]). exact Hd.
Defined.

Lemma forbidden_update_is_written_witness :
  (@store_ok calm (tick (mkWorld db_dup [] 0)) = true
   /\ 1 < length (rows_of "dup" (store (mkWorld db_dup [] 0))))
  /\ exists w',
      @restrict calm "dup" false true false (mkWorld db_dup [] 0)
      = (Rejected (Forbidden "Duplicated subject in the database"), w')
      /\ length (rows_of "dup" (store w'))
         = length (rows_of "dup" (store (mkWorld db_dup [] 0)))
      /\ forall s, In s (rows_of "dup" (store w')) ->
                   direct_marketing s = false /\ email_communication s = true
                   /\ research s = false.
Proof.
  assert (Hn : 1 < length (rows_of "dup" (store (mkWorld db_dup [] 0))))
    by (simpl; lia).
  split; [split; [reflexivity | exact Hn]|].
  apply (@forbidden_update_is_written calm "dup" false true false None
           (mkWorld db_dup [] 0) eq_refl Hn).
Defined.

Lemma listSubjects_lists_readable_subjects_witness :
  (@listSubjects calm 7 None world1
   = (Resolved (mkListing [("s1", 0)] (mkPaging 1 1)), advance (advance world1))
   /\ In ("s1", 0) [("s1", 0)])
  /\ ((exists s, In s (subjects (store world1)) /\ id s = "s1" /\ created_at s = 0
                 /\ personal_data s <> None)
      /\ keys_of "s1" (store world1) <> []
      /\ In (mkSubjectProcessor "s1" 7) (subject_processors (store world1))).
Proof.
  split; [split; [reflexivity | now left]|].
  apply (@listSubjects_lists_readable_subjects calm 7 None world1
           (advance (advance world1))
           (mkListing [("s1", 0)] (mkPaging 1 1)) "s1" 0); [reflexivity | now left].
Defined.

Lemma erased_subject_is_not_listed_witness :
  (@eraseDataAndRevokeConsent calm "s1" world1 = (Resolved tt, world1_erased)
   /\ @listSubjects calm 7 None world1_erased
      = (Resolved (mkListing [] (mkPaging 1 1)), advance (advance world1_erased)))
  /\ ~ In "s1" (map fst (data (mkListing [] (mkPaging 1 1)))).
Proof.
  split; [split; reflexivity|].
  apply (@erased_subject_is_not_listed calm "s1" world1 world1_erased
           (advance (advance world1_erased)) 7 None
           (mkListing [] (mkPaging 1 1))); reflexivity.
Defined.

Lemma listSubjects_page_is_short_and_ordered_witness :
  @listSubjects calm 7 (Some 2%Z) world12
  = (Resolved page2_of_world12, advance (advance world12))
  /\ (length (data page2_of_world12) <= 10 /\ Sorted id_le (data page2_of_world12)).
Proof.
  split; [vm_compute; reflexivity|].
  apply (@listSubjects_page_is_short_and_ordered calm 7 (Some 2%Z) world12
           (advance (advance world12)) page2_of_world12).
  vm_compute; reflexivity.
Defined.

Lemma listSubjects_page_length_witness :
  @listSubjects calm 7 (Some 2%Z) world12
  = (Resolved page2_of_world12, advance (advance world12))
  /\ length (data page2_of_world12) = 2.
Proof.
  split; [vm_compute; reflexivity|].
  pose proof (@listSubjects_page_length calm 7 (Some 2%Z) world12
                (advance (advance world12)) page2_of_world12) as H.
  cbv zeta in H. destruct H as (H & _); [vm_compute; reflexivity|].
  rewrite H. reflexivity.
Defined.

Lemma listSubjects_pages_cover_the_listing_witness :
  (forall n, @store_ok calm n = true)
  /\ concat (map (fun p => data_of (fst (@listSubjects calm 7 (Some (Z.of_nat p)) world12)))
                 (seq 1 2))
     = listed_rows 7 (store world12).
Proof.
  split; [exact calm_store_answers|].
  apply (@listSubjects_pages_cover_the_listing calm 7 world12 calm_store_answers).
Defined.

Import ProcessorsProvider.

Lemma failed_mutation_stops_witness :
  @answer down (sent mounted) = Failed "Error message"
  /\ fst (@addProcessor down compact_json (JObj [("name", JStr "acme")]) mounted)
     = Failed "Error message".
Proof.
  split; [reflexivity|].
  apply (@ProcessorsFacts.failed_mutation_stops down compact_json
           (JObj [("name", JStr "acme")]) mounted "Error message" eq_refl).
Defined.

Lemma taken_mutation_refreshes_witness :
  (@answer flaky (sent mounted) = Fulfilled two_processors /\ pending mounted = [])
  /\ state (@flushPromises flaky
              (snd (@addProcessor flaky compact_json (JObj [("name", JStr "acme")])
                      mounted)))
     = mkState (JArr []) true.
Proof.
  split; [split; reflexivity|].
  pose proof (@ProcessorsFacts.taken_mutation_refreshes flaky compact_json
                (JObj [("name", JStr "acme")]) two_processors mounted
                eq_refl eq_refl) as H.
  cbv zeta in H. destruct H as ((_ & _ & _ & _ & H & _) & _). exact H.
Defined.

Lemma deleteProcessor_resolves_to_undefined_witness :
  @answer steady (sent mounted) = Fulfilled two_processors
  /\ fst (@deleteProcessor steady compact_json (JNum 1) mounted) = Fulfilled None.
Proof.
  split; [reflexivity|].
  apply (@ProcessorsFacts.deleteProcessor_resolves_to_undefined steady compact_json
           (JNum 1) two_processors mounted eq_refl).
Defined.

End MoreRuns.
